(** * QueryBot: the conversation turn pipeline

    A shallow embedding of the two source files of the repository:

    - the Completion Relay, the [POST] handler of the chat route
      (credential check, multipart parsing, provider call, response
      normalisation);
    - the Conversation Controller, the [Tutor] component of [app/page.tsx]
      ([speak], [handleImageUpload], [handleVoice], [askGroq], the effects
      and the handlers bound in the markup).

    Promises are modelled by their outcome ([Except]: a rejection or thrown
    [Error] is [inl message], a value is [inr v]); [askGroq] is split at its
    single [await fetch] into the part that runs before the request leaves
    and the part that runs once it has settled. *)

From Stdlib Require Import List String Ascii ZArith QArith Bool Arith Lia.
From Stdlib Require DecimalString.
Import ListNotations.

Open Scope string_scope.

(** ** Exceptions *)

(** A computation that may throw: [inl message] is a thrown [Error] (or a
    rejected promise) with that [message], [inr v] a normal result. *)
Definition Except (A : Type) : Type := (string + A)%type.

(** ** The JavaScript values and string operations the code relies on *)

Module JS.

(** Strings are sequences of one-byte code units.  The white space that
    [String.prototype.trim] strips, among the code units below 256: TAB,
    LF, VT, FF, CR, SPACE and NBSP. *)
Definition is_whitespace (c : ascii) : bool :=
  let n := nat_of_ascii c in
  ((9 <=? n) && (n <=? 13) || (n =? 32) || (n =? 160))%nat.

Fixpoint trimStart (s : string) : string :=
  match s with
  | EmptyString => EmptyString
  | String c s' => if is_whitespace c then trimStart s' else s
  end.

Fixpoint trimEnd (s : string) : string :=
  match s with
  | EmptyString => EmptyString
  | String c s' =>
      match trimEnd s' with
      | EmptyString => if is_whitespace c then EmptyString else String c EmptyString
      | t => String c t
      end
  end.

(** [s.trim()] *)
Definition trim (s : string) : string := trimEnd (trimStart s).

(** [s.includes(sub)] *)
Definition includes (s sub : string) : bool :=
  match String.index 0 sub s with
  | Some _ => true
  | None => false
  end.

(** Truthiness of a string: every string but the empty one. *)
Definition truthy_string (s : string) : bool :=
  match s with
  | EmptyString => false
  | String _ _ => true
  end.

(** The values that [JSON.parse] and [response.json()] produce and that
    [NextResponse.json] serialises, plus [undefined] (the result of reading
    a property that is not there).  Numbers are restricted to the integers
    that JavaScript prints in plain decimal notation. *)
#[warnings="-register-all"]
Inductive value : Type :=
| Undefined
| Null
| Bool (b : bool)
| Num (n : Z)
| Str (s : string)
| Arr (items : list value)
| Obj (fields : list (string * value)).

(** ToBoolean *)
Definition truthy (v : value) : bool :=
  match v with
  | Undefined | Null => false
  | Bool b => b
  | Num n => negb (n =? 0)%Z
  | Str s => truthy_string s
  | Arr _ | Obj _ => true
  end.

(** [a || b] *)
Definition or_else (a b : value) : value := if truthy a then a else b.

Definition join (sep : string) (parts : list string) : string :=
  match parts with
  | [] => ""
  | p :: ps => fold_left (fun acc q => acc ++ sep ++ q) ps p
  end.

(** ToString.  An array prints its items separated by commas, [null] and
    [undefined] items as the empty string; a plain object prints as
    [[object Object]]. *)
Fixpoint toString (v : value) : string :=
  match v with
  | Undefined => "undefined"
  | Null => "null"
  | Bool true => "true"
  | Bool false => "false"
  | Num n => DecimalString.NilZero.string_of_int (Z.to_int n)
  | Str s => s
  | Arr items =>
      join "," (map (fun i => match i with
                              | Undefined | Null => ""
                              | _ => toString i
                              end) items)
  | Obj _ => "[object Object]"
  end.

Fixpoint lookup (key : string) (fields : list (string * value)) : option value :=
  match fields with
  | [] => None
  | (k, v) :: rest => if (k =? key)%string then Some v else lookup key rest
  end.

(** [key in obj] for an own property of a plain object. *)
Definition has_property (key : string) (v : value) : bool :=
  match v with
  | Obj fields => match lookup key fields with Some _ => true | None => false end
  | _ => false
  end.

(** [v.key] for one of the keys the code reads ([success], [error],
    [content]): a [TypeError] on [null] and [undefined], the own property
    of an object, [undefined] everywhere else. *)
Definition get (v : value) (key : string) : Except value :=
  match v with
  | Null =>
      inl ("Cannot read properties of null (reading '" ++ key ++ "')")
  | Undefined =>
      inl ("Cannot read properties of undefined (reading '" ++ key ++ "')")
  | Obj fields =>
      inr (match lookup key fields with Some x => x | None => Undefined end)
  | _ => inr Undefined
  end.

End JS.

(** An uploaded file: the controller only holds a reference to it, the relay
    reads its bytes. *)
Record File : Type := mkFile {
  file_name : string;
  file_bytes : list Byte.byte
}.

(** * The Completion Relay *)

Module Relay.

(** ** Data *)

(** [process.env] as far as the handler looks at it. *)
Record Env : Type := mkEnv {
  GROQ_API_KEY : option string
}.

(** A value of a multipart field: a string or a file. *)
Inductive FormValue : Type :=
| FString (s : string)
| FFile (f : File).

Definition FormData : Type := list (string * FormValue).

(** [formData.get(name)]: the first value of that name, [null] if none. *)
Fixpoint formData_get (name : string) (fd : FormData) : option FormValue :=
  match fd with
  | [] => None
  | (k, v) :: rest => if (k =? name)%string then Some v else formData_get name rest
  end.

(** The request: [req.formData()] rejects or yields the parsed fields. *)
Record Request : Type := mkRequest {
  req_formData : Except FormData
}.

(** The provider's completion object, with every part optional that the
    handler reads through [?.]. *)
Record ChatCompletionMessage : Type := mkChatCompletionMessage {
  msg_content : option string
}.

Record Choice : Type := mkChoice {
  message : option ChatCompletionMessage
}.

Record Usage : Type := mkUsage {
  total_tokens : option Z
}.

Record Completion : Type := mkCompletion {
  choices : option (list Choice);
  usage : option Usage;
  model : string
}.

(** What the handler passes to the provider: the client options of
    [new Groq({ apiKey, timeout: 15000 })] and the body of
    [chat.completions.create]. *)
Record ProviderCall : Type := mkProviderCall {
  call_apiKey : string;
  call_timeout : Z;
  call_messages : JS.value;
  call_model : string;
  call_temperature : Q
}.

(** [NextResponse.json(body, { status })] *)
Record Response : Type := mkResponse {
  status : Z;
  body : JS.value
}.

Definition NextResponse_json (b : JS.value) (st : option Z) : Response :=
  {| status := match st with Some s => s | None => 200%Z end; body := b |}.

(** ** The handler's monad: exceptions over a log of provider calls *)

Definition Try (A : Type) : Type :=
  list ProviderCall -> Except A * list ProviderCall.

Definition ret {A} (a : A) : Try A := fun log => (inr a, log).

Definition bind {A B} (m : Try A) (k : A -> Try B) : Try B :=
  fun log =>
    match m log with
    | (inl e, log') => (inl e, log')
    | (inr a, log') => k a log'
    end.

(** [await p] for a promise with a known outcome *)
Definition await {A} (p : Except A) : Try A := fun log => (p, log).

Declare Scope try_scope.
Delimit Scope try_scope with try.
Notation "x <- m ;; k" := (bind m (fun x => k))
  (at level 61, m at next level, right associativity) : try_scope.

(** [String(v)] of what [formData.get] returned, as [JSON.parse] applies it
    to its argument. *)
Definition formValue_toString (v : option FormValue) : string :=
  match v with
  | None => "null"
  | Some (FString s) => s
  | Some (FFile _) => "[object File]"
  end.

Definition configuration_error : Response :=
  NextResponse_json
    (JS.Obj [("error", JS.Str "Server configuration error");
             ("details", JS.Str "API key not configured")])
    (Some 500%Z).

Definition processing_failed (error_message : string) : Response :=
  NextResponse_json
    (JS.Obj [("success", JS.Bool false);
             ("error", JS.Str "AI processing failed");
             ("details", JS.Str error_message)])
    (Some 502%Z).

(** [completion.choices?.[0]?.message?.content || 'No response'] *)
Definition completion_content (completion : Completion) : string :=
  let first :=
    match choices completion with
    | Some cs =>
        match nth_error cs 0 with
        | Some c =>
            match message c with
            | Some m => msg_content m
            | None => None
            end
        | None => None
        end
    | None => None
    end in
  match first with
  | Some text => if JS.truthy_string text then text else "No response"
  | None => "No response"
  end.

(** [completion.usage?.total_tokens || 0] *)
Definition completion_tokens (completion : Completion) : Z :=
  match usage completion with
  | Some u =>
      match total_tokens u with
      | Some n => if (n =? 0)%Z then 0%Z else n
      | None => 0%Z
      end
  | None => 0%Z
  end.

Section Handler.

(** The platform and the provider, taken as they come. *)
Variable JSON_parse : string -> Except JS.value.
Variable arrayBuffer : File -> Except (list Byte.byte).
Variable create : ProviderCall -> Except Completion.

(** [await groq.chat.completions.create(...)]: the call is logged. *)
Definition chat_completions_create (c : ProviderCall) : Try Completion :=
  fun log => (create c, (log ++ [c])%list).

(** The body of the [try] block. *)
Definition try_block (apiKey : string) (req : Request) : Try Response :=
  (formData <- await (req_formData req) ;;
   let messagesJson := formData_get "messages" formData in
   let file := formData_get "image" formData in
   messages <- await (JSON_parse (formValue_toString messagesJson)) ;;
   imageData <- match file with
                | Some (FFile f) =>
                    (buffer <- await (arrayBuffer f) ;; ret (Some buffer))
                | _ => ret None
                end ;;
   completion <- chat_completions_create
                   {| call_apiKey := apiKey;
                      call_timeout := 15000;
                      call_messages := messages;
                      call_model := "llama3-70b-8192";
                      call_temperature := 7 # 10 |} ;;
   let content := completion_content completion in
   ret (NextResponse_json
          (JS.Obj [("success", JS.Bool true);
                   ("content", JS.Str content);
                   ("tokens_used", JS.Num (completion_tokens completion));
                   ("model", JS.Str (model completion))])
          None))%try.

(** [POST(req)]: the response and the provider calls it made. *)
Definition POST (env : Env) (req : Request) : Response * list ProviderCall :=
  match option_map JS.trim (GROQ_API_KEY env) with
  | None | Some EmptyString => (configuration_error, [])
  | Some apiKey =>
      match try_block apiKey req [] with
      | (inr response, calls) => (response, calls)
      | (inl error_message, calls) => (processing_failed error_message, calls)
      end
  end.

End Handler.

End Relay.

(** * The Conversation Controller *)

Module Controller.

(** ** Data *)

Inductive Role : Type := user | assistant.

(** [type Message = { role; content: string; error?: boolean }] *)
Record Message : Type := mkMessage {
  role : Role;
  content : string;
  error : option bool
}.

(** What one render of [Tutor] sees: the [useState] cells and the values
    handed out by [useSpeechRecognition].  The closures created by a render
    ([speak], [handleVoice], [askGroq], the effects) read these values. *)
Record State : Type := mkState {
  input : string;
  uploadedImage : option File;
  messages : list Message;
  isLoading : bool;
  isMounted : bool;
  sidebarOpen : bool;
  transcript : string;
  listening : bool;
  browserSupportsSpeechRecognition : bool
}.

(** [new SpeechSynthesisUtterance(text)] with its [rate] and [pitch]. *)
Record Utterance : Type := mkUtterance {
  text : string;
  rate : Q;
  pitch : Q
}.

(** The calls made on [window.speechSynthesis], in order. *)
Inductive SynthCall : Type :=
| Cancel
| Speak (u : Utterance).

(** The multipart body handed to [fetch('/api/chat', ...)]: the message
    list that is serialised into the field [messages] and the optional
    field [image]. *)
Record Request : Type := mkRequest {
  form_messages : list Message;
  form_image : option File
}.

(** Everything a handler can touch: the component state, the platform's
    speech synthesiser ([None] when ['speechSynthesis' in window] is
    false, otherwise its utterance queue, the head being spoken), the
    calls made on it, the requests sent, and the closures of the [askGroq]
    invocations still waiting for their [fetch]. *)
Record World : Type := mkWorld {
  state : State;
  speechSynthesis : option (list Utterance);
  synthCalls : list SynthCall;
  fetches : list Request;
  inflight : list State
}.

(** ** The state-passing monad of handlers *)

Definition Act (A : Type) : Type := World -> A * World.

Definition ret {A} (a : A) : Act A := fun w => (a, w).

Definition bind {A B} (m : Act A) (k : A -> Act B) : Act B :=
  fun w => let (a, w') := m w in k a w'.

Definition exec {A} (m : Act A) (w : World) : World := snd (m w).

Declare Scope act_scope.
Delimit Scope act_scope with act.
Notation "x <- m ;; k" := (bind m (fun x => k))
  (at level 61, m at next level, right associativity) : act_scope.
Notation "m ;; k" := (bind m (fun _ => k))
  (at level 61, right associativity) : act_scope.

Definition update (f : State -> State) : Act unit :=
  fun w => (tt, {| state := f (state w);
                   speechSynthesis := speechSynthesis w;
                   synthCalls := synthCalls w;
                   fetches := fetches w;
                   inflight := inflight w |}).

(** *** The [useState] setters *)

Definition setInput (v : string) : Act unit :=
  update (fun s => mkState v (uploadedImage s) (messages s) (isLoading s)
                     (isMounted s) (sidebarOpen s) (transcript s) (listening s)
                     (browserSupportsSpeechRecognition s)).

Definition setUploadedImage (v : option File) : Act unit :=
  update (fun s => mkState (input s) v (messages s) (isLoading s)
                     (isMounted s) (sidebarOpen s) (transcript s) (listening s)
                     (browserSupportsSpeechRecognition s)).

(** [setMessages(prev => f(prev))] *)
Definition setMessages (f : list Message -> list Message) : Act unit :=
  update (fun s => mkState (input s) (uploadedImage s) (f (messages s)) (isLoading s)
                     (isMounted s) (sidebarOpen s) (transcript s) (listening s)
                     (browserSupportsSpeechRecognition s)).

Definition setIsLoading (v : bool) : Act unit :=
  update (fun s => mkState (input s) (uploadedImage s) (messages s) v
                     (isMounted s) (sidebarOpen s) (transcript s) (listening s)
                     (browserSupportsSpeechRecognition s)).

Definition setIsMounted (v : bool) : Act unit :=
  update (fun s => mkState (input s) (uploadedImage s) (messages s) (isLoading s)
                     v (sidebarOpen s) (transcript s) (listening s)
                     (browserSupportsSpeechRecognition s)).

Definition setSidebarOpen (v : bool) : Act unit :=
  update (fun s => mkState (input s) (uploadedImage s) (messages s) (isLoading s)
                     (isMounted s) v (transcript s) (listening s)
                     (browserSupportsSpeechRecognition s)).

(** *** The speech recognition library *)

Definition set_transcript (v : string) : Act unit :=
  update (fun s => mkState (input s) (uploadedImage s) (messages s) (isLoading s)
                     (isMounted s) (sidebarOpen s) v (listening s)
                     (browserSupportsSpeechRecognition s)).

Definition set_listening (v : bool) : Act unit :=
  update (fun s => mkState (input s) (uploadedImage s) (messages s) (isLoading s)
                     (isMounted s) (sidebarOpen s) (transcript s) v
                     (browserSupportsSpeechRecognition s)).

(** [SpeechRecognition.stopListening()]: the transcript stays. *)
Definition stopListening : Act unit := set_listening false.

(** [SpeechRecognition.startListening({ continuous: true, ... })] *)
Definition startListening : Act unit := set_listening true.

Definition resetTranscript : Act unit := set_transcript "".

(** *** The platform: speech synthesis and the network

    The synthesiser speaks the head of its queue of utterances; [cancel]
    removes every utterance from the queue and [speak] adds one at its end.
    Neither call throws.  [console.error] has no effect on any of this and
    is left out. *)

(** [window.speechSynthesis.cancel()]: empties the utterance queue. *)
Definition speechSynthesis_cancel : Act unit :=
  fun w => (tt, {| state := state w;
                   speechSynthesis := option_map (fun _ => []) (speechSynthesis w);
                   synthCalls := (synthCalls w ++ [Cancel])%list;
                   fetches := fetches w;
                   inflight := inflight w |}).

(** [window.speechSynthesis.speak(u)]: adds [u] to the utterance queue. *)
Definition speechSynthesis_speak (u : Utterance) : Act unit :=
  fun w => (tt, {| state := state w;
                   speechSynthesis :=
                     option_map (fun q => (q ++ [u])%list) (speechSynthesis w);
                   synthCalls := (synthCalls w ++ [Speak u])%list;
                   fetches := fetches w;
                   inflight := inflight w |}).

(** ['speechSynthesis' in window] *)
Definition speechSynthesis_in_window : Act bool :=
  fun w => (match speechSynthesis w with Some _ => true | None => false end, w).

(** [fetch('/api/chat', { method: 'POST', body })]: the request leaves. *)
Definition fetch (body : Request) : Act unit :=
  fun w => (tt, {| state := state w;
                   speechSynthesis := speechSynthesis w;
                   synthCalls := synthCalls w;
                   fetches := (fetches w ++ [body])%list;
                   inflight := inflight w |}).

(** How a [fetch] settles, as far as [askGroq] reads it: the promise
    rejects; or the response is not [ok] and [response.text()] gives its
    text; or it is [ok] and [response.json()] gives its value. *)
Inductive FetchOutcome : Type :=
| Rejected (error_message : string)
| NotOk (response_text : Except string)
| Ok (response_json : Except JS.value).

(** ** The component *)

(** [speak], memoised on [isMounted]. *)
Definition speak (isMounted : bool) (text : string) : Act unit :=
  (supported <- speechSynthesis_in_window ;;
   if negb isMounted || negb supported then ret tt
   else
     speechSynthesis_cancel ;;
     let utterance := {| text := text; rate := 1; pitch := 1 |} in
     speechSynthesis_speak utterance)%act.

(** [handleImageUpload]: [files] is [e.target.files]. *)
Definition handleImageUpload (files : option (list File)) : Act unit :=
  match files with
  | Some (f :: _) => setUploadedImage (Some f)
  | _ => ret tt
  end.

Definition handleVoice (r : State) : Act unit :=
  (if listening r then stopListening
   else startListening ;; resetTranscript)%act.

(** [askGroq] up to [await fetch(...)], in the closure of render [r]:
    [None] when the guard returns early, otherwise the request sent. *)
Definition askGroq (r : State) : Act (option Request) :=
  (if negb (JS.truthy_string (JS.trim (input r))) || negb (isMounted r)
   then ret None
   else
     setIsLoading true ;;
     let userMessage := {| role := user; content := input r; error := None |} in
     setMessages (fun prev => prev ++ [userMessage])%list ;;
     setInput "" ;;
     let payload := (messages r ++ [userMessage])%list in
     image <- match uploadedImage r with
              | Some f => setUploadedImage None ;; ret (Some f)
              | None => ret None
              end ;;
     let formData := {| form_messages := payload; form_image := image |} in
     fetch formData ;;
     ret (Some formData))%act.

(** The rest of the [try] block, from the settled [fetch] to the content of
    the assistant message; [inl message] is the [Error] that reaches
    [catch].  [Message.content] is declared a [string]: the content taken
    from the response is read as one. *)
Definition response_content (o : FetchOutcome) : Except string :=
  match o with
  | Rejected e => inl e
  | NotOk (inl e) => inl e
  | NotOk (inr errorText) =>
      inl (if JS.includes errorText "<!DOCTYPE" then "Server error" else errorText)
  | Ok (inl e) => inl e
  | Ok (inr data) =>
      match JS.get data "success" with
      | inl e => inl e
      | inr success =>
          if negb (JS.truthy success) then
            match JS.get data "error" with
            | inl e => inl e
            | inr err =>
                inl (JS.toString (JS.or_else err (JS.Str "AI processing failed")))
            end
          else
            match JS.get data "content" with
            | inl e => inl e
            | inr c =>
                inr (JS.toString (JS.or_else c (JS.Str "I didn't get a response")))
            end
      end
  end.

(** [askGroq] from the settled [fetch] on: the end of [try], [catch] and
    [finally], in the closure of the render [r] that started the turn. *)
Definition askGroq_settled (r : State) (o : FetchOutcome) : Act unit :=
  (match response_content o with
   | inr c =>
       let assistantMessage := {| role := assistant; content := c; error := None |} in
       setMessages (fun prev => prev ++ [assistantMessage])%list ;;
       speak (isMounted r) (content assistantMessage)
   | inl error_message =>
       let errorMessage := {| role := assistant;
                              content := "Error: " ++ error_message;
                              error := Some true |} in
       setMessages (fun prev => prev ++ [errorMessage])%list ;;
       speak (isMounted r) "Sorry, I encountered an error"
   end ;;
   setIsLoading false)%act.

(** *** Effects *)

(** [useEffect(() => { setIsMounted(true); ... }, [])] *)
Definition mountEffect : Act unit := setIsMounted true.

(** [useEffect(() => { if (listening) setInput(transcript); }, ...)] *)
Definition mirrorEffect (r : State) : Act unit :=
  if listening r then setInput (transcript r) else ret tt.

(** [useEffect(() => { if (!listening && transcript.trim()) askGroq(); }, ...)] *)
Definition voiceStopEffect (r : State) : Act (option Request) :=
  if negb (listening r) && JS.truthy_string (JS.trim (transcript r))
  then askGroq r
  else ret None.

(** *** The handlers bound in the markup *)

(** [onKeyDown={e => e.key === 'Enter' && !isLoading && askGroq()}] *)
Definition onKeyDown (r : State) (key : string) : Act (option Request) :=
  if (key =? "Enter")%string && negb (isLoading r) then askGroq r else ret None.

(** The ask button: [disabled={isLoading || !input.trim()}]. *)
Definition askButton_disabled (r : State) : bool :=
  isLoading r || negb (JS.truthy_string (JS.trim (input r))).

(** ** The page at run time

    One [step] is what React does for one event: the handler runs in the
    closure of the last render, the component re-renders, and the effects
    whose dependencies changed run in the closure of the new render, until
    no dependency changes any more.  Dependencies are compared as React
    does: strings and booleans by value, the message array and the file by
    identity, which here is equality (every [setMessages] of the component
    appends, and a [File] value stands for one file object). *)

Definition File_eq_dec (a b : File) : {a = b} + {a <> b}.
Proof.
  decide equality; [apply (list_eq_dec Byte.byte_eq_dec) | apply string_dec].
Defined.

Definition Message_eq_dec (a b : Message) : {a = b} + {a <> b}.
Proof.
  decide equality;
    [ decide equality; apply Bool.bool_dec | apply string_dec | decide equality ].
Defined.

(** An event of the page: of the user, of the speech recognition library,
    or of the network. *)
Inductive Event : Type :=
| Mounted                                 (* the first commit *)
| Typed (v : string)                      (* [onChange] of the text field *)
| KeyDown (key : string)                  (* [onKeyDown] of the text field *)
| ClickAsk                                (* the ask button *)
| ClickVoice                              (* the microphone button *)
| FilesChosen (files : option (list File)) (* [onChange] of the file input *)
| ToggleSidebar
| Heard (t : string)                      (* a new transcript while listening *)
| RecognitionEnded                        (* the browser ended the recognition *)
| Settled (i : nat) (o : FetchOutcome)    (* the [i]-th pending [fetch] settled *)
| UtteranceEnded.                         (* the utterance being spoken is over *)

(** The markup is returned only once mounted and if the browser supports
    speech recognition. *)
Definition rendered (r : State) : bool :=
  isMounted r && browserSupportsSpeechRecognition r.

(** An [askGroq] invocation that got as far as [fetch] waits for it with
    its closure. *)
Definition launch (r : State) (m : Act (option Request)) : Act unit :=
  fun w =>
    match m w with
    | (Some _, w') =>
        (tt, {| state := state w';
                speechSynthesis := speechSynthesis w';
                synthCalls := synthCalls w';
                fetches := fetches w';
                inflight := (inflight w' ++ [r])%list |})
    | (None, w') => (tt, w')
    end.

Fixpoint remove_nth {A} (i : nat) (l : list A) : list A :=
  match l, i with
  | [], _ => []
  | _ :: l', O => l'
  | x :: l', S j => x :: remove_nth j l'
  end.

Definition resume (i : nat) (o : FetchOutcome) : Act unit :=
  fun w =>
    match nth_error (inflight w) i with
    | Some r =>
        askGroq_settled r o
          {| state := state w;
             speechSynthesis := speechSynthesis w;
             synthCalls := synthCalls w;
             fetches := fetches w;
             inflight := remove_nth i (inflight w) |}
    | None => (tt, w)
    end.

(** The synthesiser has finished the utterance at the head of its queue
    and goes on with the next one. *)
Definition speechSynthesis_next : Act unit :=
  fun w => (tt, {| state := state w;
                   speechSynthesis := option_map (@tl Utterance) (speechSynthesis w);
                   synthCalls := synthCalls w;
                   fetches := fetches w;
                   inflight := inflight w |}).

(** The handler of an event, in the closure of the last render.  The text
    field and the microphone button are [disabled={isLoading}], the ask
    button is [disabled={isLoading || !input.trim()}]. *)
Definition handle (e : Event) : Act unit :=
  fun w =>
    let r := state w in
    match e with
    | Mounted => mountEffect w
    | Typed v =>
        if rendered r && negb (isLoading r) then setInput v w else (tt, w)
    | KeyDown key =>
        if rendered r && negb (isLoading r) then launch r (onKeyDown r key) w
        else (tt, w)
    | ClickAsk =>
        if rendered r && negb (askButton_disabled r) then launch r (askGroq r) w
        else (tt, w)
    | ClickVoice =>
        if rendered r && negb (isLoading r) then handleVoice r w else (tt, w)
    | FilesChosen files =>
        if rendered r then handleImageUpload files w else (tt, w)
    | ToggleSidebar =>
        if rendered r then setSidebarOpen (negb (sidebarOpen r)) w else (tt, w)
    | Heard t =>
        if listening r then set_transcript t w else (tt, w)
    | RecognitionEnded => set_listening false w
    | Settled i o => resume i o w
    | UtteranceEnded => speechSynthesis_next w
    end.

(** The dependency lists of the effects, compared between two renders. *)
Definition mirror_deps_changed (prev cur : State) : bool :=
  negb (transcript prev =? transcript cur)%string
  || negb (Bool.eqb (listening prev) (listening cur)).

(** [askGroq] is memoised on [[input, messages, isMounted, speak,
    uploadedImage]], and [speak] on [[isMounted]]. *)
Definition askGroq_changed (prev cur : State) : bool :=
  negb (input prev =? input cur)%string
  || (if list_eq_dec Message_eq_dec (messages prev) (messages cur)
      then false else true)
  || negb (Bool.eqb (isMounted prev) (isMounted cur))
  || (match uploadedImage prev, uploadedImage cur with
      | None, None => false
      | Some a, Some b => if File_eq_dec a b then false else true
      | _, _ => true
      end).

Definition voiceStop_deps_changed (prev cur : State) : bool :=
  negb (Bool.eqb (listening prev) (listening cur))
  || negb (transcript prev =? transcript cur)%string
  || askGroq_changed prev cur.

(** The effects of the commit of render [cur], which follows render
    [prev]. *)
Definition run_effects (prev cur : State) : Act unit :=
  ((if mirror_deps_changed prev cur then mirrorEffect cur else ret tt) ;;
   (if voiceStop_deps_changed prev cur
    then launch cur (voiceStopEffect cur)
    else ret tt))%act.

Fixpoint rerender (fuel : nat) (prev : State) (w : World) : World :=
  match fuel with
  | O => w
  | S n =>
      let cur := state w in
      if mirror_deps_changed prev cur || voiceStop_deps_changed prev cur
      then rerender n cur (exec (run_effects prev cur) w)
      else w
  end.

Definition step (w : World) (e : Event) : World :=
  rerender 3 (state w) (exec (handle e) w).

Definition run (w : World) (events : list Event) : World :=
  fold_left step events w.

(** The page before its first commit. *)
Definition initial (synth : option (list Utterance)) (supported : bool) : World :=
  {| state := {| input := "";
                 uploadedImage := None;
                 messages := [];
                 isLoading := false;
                 isMounted := false;
                 sidebarOpen := true;
                 transcript := "";
                 listening := false;
                 browserSupportsSpeechRecognition := supported |};
     speechSynthesis := synth;
     synthCalls := [];
     fetches := [];
     inflight := [] |}.

End Controller.

(** * What the specification says of the relay *)

Module RelaySpec.

Import Relay.

(** ** The response the specification describes *)

(** The first choice's message text, if there is one. *)
Definition first_choice_text (completion : Completion) : option string :=
  match choices completion with
  | Some (c :: _) =>
      match message c with
      | Some m => msg_content m
      | None => None
      end
  | _ => None
  end.

(** The usage total, if the provider reported one. *)
Definition reported_total (completion : Completion) : option Z :=
  match usage completion with
  | Some u => total_tokens u
  | None => None
  end.

(** The content as the specification words it: the first choice's message
    text, or the placeholder if absent. *)
Definition spec_content (completion : Completion) : string :=
  match first_choice_text completion with
  | Some t => t
  | None => "No response"
  end.

(** The content as the handler computes it: the placeholder also stands in
    for an empty text. *)
Definition text_or_placeholder (completion : Completion) : string :=
  match first_choice_text completion with
  | Some t => if string_dec t "" then "No response" else t
  | None => "No response"
  end.

Definition total_or_zero (completion : Completion) : Z :=
  match reported_total completion with
  | Some n => n
  | None => 0%Z
  end.

(** [{success: true, content, tokens_used, model}] *)
Definition success_result (c : string) (t : Z) (m : string) : JS.value :=
  JS.Obj [("success", JS.Bool true); ("content", JS.Str c);
          ("tokens_used", JS.Num t); ("model", JS.Str m)].

(** [{success: false, error, details}] *)
Definition failure_result (e d : string) : JS.value :=
  JS.Obj [("success", JS.Bool false); ("error", JS.Str e); ("details", JS.Str d)].

(** A body has one of the two Turn Result shapes. *)
Definition turn_result_shape (b : JS.value) : Prop :=
  (exists c t m, b = success_result c t m) \/ (exists e d, b = failure_result e d).

(** The provider call the handler makes for a key and a message list. *)
Definition the_call (apiKey : string) (messages : JS.value) : ProviderCall :=
  {| call_apiKey := apiKey;
     call_timeout := 15000;
     call_messages := messages;
     call_model := "llama3-70b-8192";
     call_temperature := 7 # 10 |}.

(** The credential is configured: the variable is set and is more than
    white space. *)
Definition configured (env : Env) (apiKey : string) : Prop :=
  option_map JS.trim (GROQ_API_KEY env) = Some apiKey /\ apiKey <> "".

Section Facts.

Variable JSON_parse : string -> Except JS.value.
Variable arrayBuffer : File -> Except (list Byte.byte).
Variable create : ProviderCall -> Except Completion.

Local Abbreviation POST := (POST JSON_parse arrayBuffer create).

(** The request parses: the form data, the message payload and the
    image, if a file was sent, are all read without an exception. *)
Definition parses (req : Request) (messages : JS.value) : Prop :=
  exists fd,
    req_formData req = inr fd /\
    JSON_parse (formValue_toString (formData_get "messages" fd)) = inr messages /\
    match formData_get "image" fd with
    | Some (FFile f) => exists buffer, arrayBuffer f = inr buffer
    | _ => True
    end.

(** The ways the handling of a request can fail, each with the message of
    the exception. *)
Inductive fails (apiKey : string) (req : Request) (m : string) : Prop :=
| form_data_rejected :
    req_formData req = inl m -> fails apiKey req m
| payload_unparseable fd :
    req_formData req = inr fd ->
    JSON_parse (formValue_toString (formData_get "messages" fd)) = inl m ->
    fails apiKey req m
| image_unreadable fd messages f :
    req_formData req = inr fd ->
    JSON_parse (formValue_toString (formData_get "messages" fd)) = inr messages ->
    formData_get "image" fd = Some (FFile f) ->
    arrayBuffer f = inl m ->
    fails apiKey req m
| provider_failed messages :
    parses req messages ->
    create (the_call apiKey messages) = inl m ->
    fails apiKey req m.

End Facts.

(** ** Concrete requests *)

Definition parse_any : string -> Except JS.value := fun _ => inr (JS.Arr []).
Definition read_any : File -> Except (list Byte.byte) := fun f => inr (file_bytes f).

Definition env_with_key : Env := {| GROQ_API_KEY := Some " gsk_test " |}.
Definition env_without_key : Env := {| GROQ_API_KEY := None |}.

Definition plain_request : Request :=
  {| req_formData := inr [("messages", FString "[]")] |}.

(** The completion of the specification's round-trip example. *)
Definition paris : Completion :=
  {| choices := Some [ {| message := Some {| msg_content := Some "Paris" |} |} ];
     usage := Some {| total_tokens := Some 12%Z |};
     model := "m1" |}.

(** A completion whose first choice carries an empty text. *)
Definition empty_text : Completion :=
  {| choices := Some [ {| message := Some {| msg_content := Some "" |} |} ];
     usage := Some {| total_tokens := Some 5%Z |};
     model := "m1" |}.

End RelaySpec.


(** * What the specification says of the controller *)

Module ControllerSpec.

Import Controller.

(** The user message of a turn submitted with input [text]. *)
Definition user_message (text : string) : Message :=
  {| role := user; content := text; error := None |}.

(** A turn fails when an [Error] reaches the [catch] of [askGroq]. *)
Definition turn_fails (o : FetchOutcome) : Prop :=
  exists error_message, response_content o = inl error_message.

(** The assistant message of a settled turn: the content of the response,
    or the flagged report of the error. *)
Definition reply_message (o : FetchOutcome) : Message :=
  match response_content o with
  | inr c => {| role := assistant; content := c; error := None |}
  | inl e => {| role := assistant; content := "Error: " ++ e; error := Some true |}
  end.

(** The request of a turn submitted in the closure of render [r]. *)
Definition turn_request (r : State) : Request :=
  {| form_messages := (messages r ++ [user_message (input r)])%list;
     form_image := uploadedImage r |}.

(** The error flag is set on assistant messages only. *)
Definition well_flagged (m : Message) : Prop :=
  (error m = Some true -> role m = assistant) /\
  (role m = user -> error m = None).

(** At most one utterance is in the synthesiser's queue: the one being
    spoken, with none waiting behind it. *)
Definition at_most_one_utterance (w : World) : Prop :=
  match speechSynthesis w with
  | Some queue => (List.length queue <= 1)%nat
  | None => True
  end.

(** What every operation of the page keeps: the history only grows, by
    well-flagged messages, and the synthesiser never holds two utterances. *)
Definition progress (w w' : World) : Prop :=
  (exists more,
      messages (state w') = (messages (state w) ++ more)%list /\
      Forall well_flagged more) /\
  (at_most_one_utterance w -> at_most_one_utterance w').

(** The worlds in which the page runs a handler or an effect: its initial
    world, and what a handler or the effects of a commit leave behind. *)
Inductive on_page : World -> Prop :=
| on_page_initial synth supported :
    on_page (initial synth supported)
| on_page_handle w e :
    on_page w -> on_page (exec (handle e) w)
| on_page_effects w prev :
    on_page w -> on_page (exec (run_effects prev (state w)) w).

(** Either the page is mounted, or its text field is still empty and its
    microphone off. *)
Definition mounted_or_blank (w : World) : Prop :=
  isMounted (state w) = true \/
  (input (state w) = "" /\ listening (state w) = false).

(** The page once the recognition has stopped, before the effects of the
    render that follows. *)
Definition stopped (w : World) : World := exec (set_listening false) w.

(** An action that makes progress from every world. *)
Definition steady {A} (m : Act A) : Prop := forall w, progress w (snd (m w)).

(** ** Concrete worlds *)

Definition success_json (c : string) : JS.value :=
  JS.Obj [("success", JS.Bool true); ("content", JS.Str c);
          ("tokens_used", JS.Num 12); ("model", JS.Str "m1")].

(** The page, mounted, with "hi" typed in the text field. *)
Definition typed_hi : World :=
  run (initial (Some []) true) [Mounted; Typed "hi"].

(** A turn was started from the keyboard while the microphone was on, and
    the recognition went on to hear more while the request is pending. *)
Definition listening_while_loading : World :=
  run (initial (Some []) true)
    [Mounted; ClickVoice; Heard "hello"; KeyDown "Enter"; Heard "hello world"].

(** The microphone is on, "hello" was heard and mirrored into the text
    field, and the user has typed one more letter after it. *)
Definition edited_while_listening : World :=
  run (initial (Some []) true)
    [Mounted; ClickVoice; Heard "hello"; Typed "hellox"].

(** The microphone is on and "hello" was heard. *)
Definition heard_hello : World :=
  run (initial (Some []) true) [Mounted; ClickVoice; Heard "hello"].

End ControllerSpec.


(** * More of the relay's behaviour to state *)

Module RelayMore.

Import Relay.

Section Facts.

Variable JSON_parse : string -> Except JS.value.
Variable arrayBuffer : File -> Except (list Byte.byte).

(** The request fails before the provider is reached: its form data, its
    message payload or its image cannot be read. *)
Definition fails_early (req : Request) (m : string) : Prop :=
  req_formData req = inl m \/
  (exists fd,
      req_formData req = inr fd /\
      JSON_parse (formValue_toString (formData_get "messages" fd)) = inl m) \/
  (exists fd messages f,
      req_formData req = inr fd /\
      JSON_parse (formValue_toString (formData_get "messages" fd)) = inr messages /\
      formData_get "image" fd = Some (FFile f) /\
      arrayBuffer f = inl m).

(** The image of the form data, if it is a file, can be read. *)
Definition image_readable (fd : FormData) : Prop :=
  match formData_get "image" fd with
  | Some (FFile f) => exists buffer, arrayBuffer f = inr buffer
  | _ => True
  end.

End Facts.

(** ** Concrete requests *)

Definition env_with_blank_key : Env := {| GROQ_API_KEY := Some "   " |}.

Definition snapshot : File :=
  {| file_name := "snapshot.png"; file_bytes := [Byte.x89; Byte.x50] |}.

Definition request_with_image : Request :=
  {| req_formData := inr [("messages", FString "[]"); ("image", FFile snapshot)] |}.

End RelayMore.


(** * More of the controller's behaviour to state *)

Module ControllerMore.

Import Controller ControllerSpec.

(** The page of a browser without speech recognition, where the markup is
    never returned: nothing typed, nothing heard, nothing sent. *)
Definition unsupported_idle (w : World) : Prop :=
  browserSupportsSpeechRecognition (state w) = false /\
  input (state w) = "" /\
  listening (state w) = false /\
  messages (state w) = [] /\
  fetches w = [] /\
  inflight w = [].

(** The utterance [speak] builds for a text. *)
Definition utterance_of (t : string) : Utterance :=
  {| text := t; rate := 1; pitch := 1 |}.

(** What a settled turn says aloud: the content of the reply, or the fixed
    apology. *)
Definition spoken_text (o : FetchOutcome) : string :=
  match response_content o with
  | inr c => c
  | inl _ => "Sorry, I encountered an error"
  end.

(** The response has a truthy [success] field in a body that was read as
    JSON from an [ok] response. *)
Definition reports_success (o : FetchOutcome) : Prop :=
  exists data success,
    o = Ok (inr data) /\
    JS.get data "success" = inr success /\
    JS.truthy success = true.

(** The HTTP hop between the two halves: what [fetch] hands to [askGroq]
    for a response of the relay.  [response.ok] holds for the statuses 200
    to 299; [response.json()] gives back the body that
    [NextResponse.json] serialised, and [response.text()] the serialised
    text itself. *)
Definition deliver (stringify : JS.value -> string) (response : Relay.Response)
  : FetchOutcome :=
  if ((200 <=? Relay.status response) && (Relay.status response <=? 299))%Z
  then Ok (inr (Relay.body response))
  else NotOk (inr (stringify (Relay.body response))).

(** ** Concrete worlds *)

(** The page, mounted, with only blanks typed in the text field. *)
Definition typed_blanks : World :=
  run (initial (Some []) true) [Mounted; Typed "   "].

(** The page, mounted and idle. *)
Definition mounted_idle : World :=
  run (initial (Some []) true) [Mounted].

(** A turn was dictated, submitted by switching the microphone off, and
    answered. *)
Definition after_voice_turn : World :=
  run (initial (Some []) true)
    [Mounted; ClickVoice; Heard "hello"; ClickVoice;
     Settled 0 (Ok (inr (success_json "Hi")))].

End ControllerMore.


(** * Properties of the Completion Relay *)

Module RelayProperties.

Import Relay RelaySpec.

(** ** What the handler computes from a completion *)

Lemma completion_content_spec completion :
  completion_content completion = text_or_placeholder completion.
Proof.
  unfold completion_content, text_or_placeholder, first_choice_text.
  destruct (choices completion) as [[|c cs]|]; cbn; try reflexivity.
  destruct (message c) as [m|]; try reflexivity.
  destruct (msg_content m) as [t|]; try reflexivity.
  destruct t; reflexivity.
Qed.

Lemma completion_tokens_spec completion :
  completion_tokens completion = total_or_zero completion.
Proof.
  unfold completion_tokens, total_or_zero, reported_total.
  destruct (usage completion) as [u|]; try reflexivity.
  destruct (total_tokens u) as [n|]; try reflexivity.
  destruct (Z.eqb_spec n 0); congruence.
Qed.

Section Facts.

Variable JSON_parse : string -> Except JS.value.
Variable arrayBuffer : File -> Except (list Byte.byte).
Variable create : ProviderCall -> Except Completion.

Local Abbreviation POST := (POST JSON_parse arrayBuffer create).
Local Abbreviation try_block := (try_block JSON_parse arrayBuffer create).
Local Abbreviation parses := (parses JSON_parse arrayBuffer).
Local Abbreviation fails := (fails JSON_parse arrayBuffer create).

(** With a configured credential the handler is its [try] block under its
    [catch]. *)
Lemma POST_configured env apiKey req :
  configured env apiKey ->
  POST env req =
    match try_block apiKey req [] with
    | (inr response, calls) => (response, calls)
    | (inl error_message, calls) => (processing_failed error_message, calls)
    end.
Proof.
  intros [Hk Hne]. unfold Relay.POST. rewrite Hk.
  destruct apiKey; [congruence | reflexivity].
Qed.

(** A request that parses reaches the provider, once. *)
Lemma try_block_parses apiKey req messages :
  parses req messages ->
  try_block apiKey req [] =
    match create (the_call apiKey messages) with
    | inl m => (inl m, [the_call apiKey messages])
    | inr completion =>
        (inr (NextResponse_json
                (success_result (completion_content completion)
                   (completion_tokens completion) (model completion)) None),
         [the_call apiKey messages])
    end.
Proof.
  intros (fd & Hfd & Hjson & Himg).
  unfold Relay.try_block, bind, await, ret, chat_completions_create.
  rewrite Hfd, Hjson. fold (the_call apiKey messages).
  destruct (formData_get "image" fd) as [[s|f]|].
  - cbn. destruct (create _); reflexivity.
  - destruct Himg as [buffer Hb]. rewrite Hb. cbn. destruct (create _); reflexivity.
  - cbn. destruct (create _); reflexivity.
Qed.

(** An exception anywhere in the [try] block is what the block ends with. *)
Lemma try_block_fails apiKey req m :
  fails apiKey req m -> exists calls, try_block apiKey req [] = (inl m, calls).
Proof.
  intros [Hfd | fd Hfd Hjson | fd messages f Hfd Hjson Hget Hab | messages Hp Hc].
  - exists []. unfold Relay.try_block, bind, await. rewrite Hfd. reflexivity.
  - exists []. unfold Relay.try_block, bind, await. rewrite Hfd, Hjson. reflexivity.
  - exists []. unfold Relay.try_block, bind, await. rewrite Hfd, Hjson, Hget, Hab.
    reflexivity.
  - exists [the_call apiKey messages].
    rewrite (try_block_parses apiKey req messages Hp), Hc. reflexivity.
Qed.

(** Every run of the [try] block either fails in one of the listed ways or
    received a completion for a request that parses. *)
Lemma try_block_cases apiKey req :
  (exists m, fails apiKey req m) \/
  (exists messages completion,
      parses req messages /\ create (the_call apiKey messages) = inr completion).
Proof.
  destruct (req_formData req) as [m|fd] eqn:Hfd.
  { left. exists m. now apply form_data_rejected. }
  destruct (JSON_parse (formValue_toString (formData_get "messages" fd)))
    as [m|messages] eqn:Hjson.
  { left. exists m. now apply payload_unparseable with fd. }
  assert (Himg : (exists f m, formData_get "image" fd = Some (FFile f) /\ arrayBuffer f = inl m)
                 \/ parses req messages).
  { unfold RelaySpec.parses.
    destruct (formData_get "image" fd) as [[s|f]|] eqn:Hget.
    - right. exists fd. rewrite Hget. auto.
    - destruct (arrayBuffer f) as [m|buffer] eqn:Hab.
      + left. eauto.
      + right. exists fd. rewrite Hget. eauto.
    - right. exists fd. rewrite Hget. auto. }
  destruct Himg as [(f & m & Hget & Hab) | Hp].
  { left. exists m. now apply image_unreadable with fd messages f. }
  destruct (create (the_call apiKey messages)) as [m|completion] eqn:Hc.
  - left. exists m. now apply provider_failed with messages.
  - right. eauto.
Qed.

(** C3 (as amended).  For every provider completion the relay receives
    without throwing, the response is, at status 200,
    [{success: true, content: c, tokens_used: t, model: m}] where [c] is the
    first choice's message text when that text is present and not empty and
    the placeholder "No response" otherwise, [t] is the reported usage total
    or 0 if none is reported, and [m] is the provider's model identifier; the
    provider was called exactly once. *)
Theorem success_response env apiKey req messages completion :
  configured env apiKey ->
  parses req messages ->
  create (the_call apiKey messages) = inr completion ->
  POST env req =
    ({| status := 200;
        body := success_result (text_or_placeholder completion)
                  (total_or_zero completion) (model completion) |},
     [the_call apiKey messages]).
Proof.
  intros Hk Hp Hc.
  rewrite (POST_configured env apiKey req Hk).
  rewrite (try_block_parses apiKey req messages Hp), Hc.
  rewrite completion_content_spec, completion_tokens_spec. reflexivity.
Qed.

(** C5.  If the credential is absent from the environment, the handler makes
    no provider call and answers with the configuration error at status 500,
    which differs from the status of every provider-call failure, 502. *)
Theorem missing_credential env req :
  GROQ_API_KEY env = None ->
  POST env req = (configuration_error, []) /\
  status configuration_error = 500%Z /\
  forall m, status (processing_failed m) = 502%Z /\
            status configuration_error <> status (processing_failed m).
Proof.
  intros Hnone. unfold Relay.POST. rewrite Hnone. cbn.
  repeat split; discriminate.
Qed.

(** C6.  With a configured credential, every failure inside the handling of
    a request (the form data cannot be read, the message payload does not
    parse, the image cannot be read, the provider call fails, by a network
    error, a timeout or a non-success answer) is answered at status 502 with
    [{success: false, error: "AI processing failed", details: m}], [m] being
    the message of the underlying failure, whatever the kind of failure. *)
Theorem failure_response env apiKey req m :
  configured env apiKey ->
  fails apiKey req m ->
  fst (POST env req) =
    {| status := 502; body := failure_result "AI processing failed" m |}.
Proof.
  intros Hk Hf.
  rewrite (POST_configured env apiKey req Hk).
  destruct (try_block_fails apiKey req m Hf) as [calls ->]. reflexivity.
Qed.

(** The bodies the handler produces: the two Turn Result shapes under a
    configured credential, the two-field configuration error otherwise. *)
Lemma response_bodies env req :
  turn_result_shape (body (fst (POST env req))) \/
  fst (POST env req) = configuration_error.
Proof.
  unfold Relay.POST.
  destruct (option_map JS.trim (GROQ_API_KEY env)) as [[|a k]|] eqn:Hk; auto.
  left. set (apiKey := String a k).
  destruct (try_block_cases apiKey req) as [[m Hf] | (messages & completion & Hp & Hc)].
  - destruct (try_block_fails apiKey req m Hf) as [calls ->]. cbn.
    right. eexists _, _. reflexivity.
  - rewrite (try_block_parses apiKey req messages Hp), Hc. cbn.
    left. eexists _, _, _. reflexivity.
Qed.

End Facts.

(** ** Concrete requests *)

Lemma plain_request_parses : parses parse_any read_any plain_request (JS.Arr []).
Proof. exists [("messages", FString "[]")]. cbn. auto. Defined.

Lemma env_with_key_configured : configured env_with_key "gsk_test".
Proof. split; [reflexivity | discriminate]. Defined.

(** The round trip of the specification: the completion
    [{choices: [{message: {content: "Paris"}}], usage: {total_tokens: 12},
    model: "m1"}] is answered by
    [{success: true, content: "Paris", tokens_used: 12, model: "m1"}]. *)
Lemma success_response_paris :
  Relay.POST parse_any read_any (fun _ => inr paris) env_with_key plain_request =
    ({| status := 200; body := success_result "Paris" 12 "m1" |},
     [the_call "gsk_test" (JS.Arr [])]).
Proof.
  exact (success_response parse_any read_any (fun _ => inr paris)
           env_with_key "gsk_test" plain_request (JS.Arr []) paris
           env_with_key_configured plain_request_parses eq_refl).
Defined.

(** C3 as stated fails on an empty text: the first choice's message text is
    present and is the empty string, the response carries the placeholder. *)
Lemma empty_text_gets_placeholder :
  first_choice_text empty_text = Some "" /\
  spec_content empty_text = "" /\
  body (fst (Relay.POST parse_any read_any (fun _ => inr empty_text)
               env_with_key plain_request))
    = success_result "No response" 5 "m1" /\
  body (fst (Relay.POST parse_any read_any (fun _ => inr empty_text)
               env_with_key plain_request))
    <> success_result (spec_content empty_text) 5 "m1".
Proof. repeat split. discriminate. Qed.

(** C4 (the code at the failing input).  Without a credential the response,
    whatever the request, has the fields [error] and [details] only: it has
    no [success] field and is neither of the two Turn Result shapes. *)
Theorem configuration_error_body JSON_parse arrayBuffer create req :
  let response := fst (Relay.POST JSON_parse arrayBuffer create env_without_key req) in
  status response = 500%Z /\
  body response =
    JS.Obj [("error", JS.Str "Server configuration error");
            ("details", JS.Str "API key not configured")] /\
  JS.has_property "success" (body response) = false /\
  ~ turn_result_shape (body response).
Proof.
  cbn. repeat split.
  intros [(c & t & m & H) | (e & d & H)]; discriminate H.
Qed.

Lemma unparseable_payload_fails :
  fails (fun _ => inl "Unexpected end of JSON input") read_any (fun _ => inr paris)
    "gsk_test" plain_request "Unexpected end of JSON input".
Proof. now apply payload_unparseable with [("messages", FString "[]")]. Defined.

Lemma failure_response_example :
  fst (Relay.POST (fun _ => inl "Unexpected end of JSON input") read_any
         (fun _ => inr paris) env_with_key plain_request)
  = {| status := 502;
       body := failure_result "AI processing failed" "Unexpected end of JSON input" |} /\
  fst (Relay.POST parse_any read_any (fun _ => inl "Request timed out.")
         env_with_key plain_request)
  = {| status := 502;
       body := failure_result "AI processing failed" "Request timed out." |}.
Proof.
  split.
  - exact (failure_response (fun _ => inl "Unexpected end of JSON input") read_any
             (fun _ => inr paris) env_with_key "gsk_test" plain_request
             "Unexpected end of JSON input"
             env_with_key_configured unparseable_payload_fails).
  - exact (failure_response parse_any read_any (fun _ => inl "Request timed out.")
             env_with_key "gsk_test" plain_request "Request timed out."
             env_with_key_configured
             (provider_failed parse_any read_any (fun _ => inl "Request timed out.")
                "gsk_test" plain_request "Request timed out." (JS.Arr [])
                plain_request_parses eq_refl)).
Defined.

Lemma missing_credential_example :
  Relay.POST parse_any read_any (fun _ => inr paris) env_without_key plain_request
    = (configuration_error, []) /\
  status configuration_error = 500%Z /\
  forall m, status (processing_failed m) = 502%Z /\
            status configuration_error <> status (processing_failed m).
Proof.
  exact (missing_credential parse_any read_any (fun _ => inr paris)
           env_without_key plain_request eq_refl).
Defined.

End RelayProperties.


(** * Properties of the Conversation Controller *)

Module ControllerProperties.

Import Controller ControllerSpec.

#[local] Arguments JS.trim : simpl never.

(** ** Progress: every action only appends well-flagged messages *)

Lemma progress_refl w : progress w w.
Proof.
  split; [exists []; split; [now rewrite app_nil_r | constructor] | auto].
Qed.

Lemma progress_trans w1 w2 w3 : progress w1 w2 -> progress w2 w3 -> progress w1 w3.
Proof.
  intros [(m1 & H1 & F1) Q1] [(m2 & H2 & F2) Q2]. split; [|auto].
  exists (m1 ++ m2)%list. split.
  - rewrite H2, H1, app_assoc. reflexivity.
  - apply Forall_app. auto.
Qed.

(** Whatever leaves the history and the synthesiser alone makes progress. *)
Lemma progress_frame w w' :
  messages (state w') = messages (state w) ->
  speechSynthesis w' = speechSynthesis w ->
  progress w w'.
Proof.
  intros Hm Hs. split.
  - exists []. rewrite app_nil_r. split; [assumption | constructor].
  - unfold at_most_one_utterance. now rewrite Hs.
Qed.

Lemma steady_ret {A} (a : A) : steady (ret a).
Proof. intro w. apply progress_refl. Qed.

Lemma steady_bind {A B} (m : Act A) (k : A -> Act B) :
  steady m -> (forall a, steady (k a)) -> steady (bind m k).
Proof.
  intros Hm Hk w. unfold bind. specialize (Hm w).
  destruct (m w) as [a w1]. cbn in Hm.
  apply progress_trans with w1; [assumption | apply Hk].
Qed.

Lemma steady_setInput v : steady (setInput v).
Proof. intro w. now apply progress_frame. Qed.

Lemma steady_setUploadedImage v : steady (setUploadedImage v).
Proof. intro w. now apply progress_frame. Qed.

Lemma steady_setIsLoading v : steady (setIsLoading v).
Proof. intro w. now apply progress_frame. Qed.

Lemma steady_setIsMounted v : steady (setIsMounted v).
Proof. intro w. now apply progress_frame. Qed.

Lemma steady_setSidebarOpen v : steady (setSidebarOpen v).
Proof. intro w. now apply progress_frame. Qed.

Lemma steady_set_transcript v : steady (set_transcript v).
Proof. intro w. now apply progress_frame. Qed.

Lemma steady_set_listening v : steady (set_listening v).
Proof. intro w. now apply progress_frame. Qed.

Lemma steady_fetch body : steady (fetch body).
Proof. intro w. now apply progress_frame. Qed.

Lemma steady_append m :
  well_flagged m -> steady (setMessages (fun prev => prev ++ [m])%list).
Proof.
  intros Hm w. split.
  - exists [m]. split; [reflexivity | now constructor].
  - auto.
Qed.

Lemma steady_speak mounted t : steady (speak mounted t).
Proof.
  intro w. unfold speak, bind, speechSynthesis_in_window.
  destruct (negb mounted || negb _) eqn:Hguard; [apply progress_refl|].
  split.
  - exists []. cbn. rewrite app_nil_r. split; [reflexivity | constructor].
  - intros _. unfold at_most_one_utterance. cbn.
    destruct (speechSynthesis w); cbn; auto.
Qed.

Lemma steady_speechSynthesis_next : steady speechSynthesis_next.
Proof.
  intro w. split.
  - exists []. cbn. rewrite app_nil_r. split; [reflexivity | constructor].
  - unfold at_most_one_utterance. cbn.
    destruct (speechSynthesis w) as [[|u q]|]; cbn; auto. lia.
Qed.

Lemma well_flagged_user t : well_flagged (user_message t).
Proof. split; [discriminate | reflexivity]. Qed.

Lemma well_flagged_assistant c e :
  well_flagged {| role := assistant; content := c; error := e |}.
Proof. split; [reflexivity | discriminate]. Qed.

Create HintDb steady.
#[local] Hint Resolve steady_ret steady_setInput steady_setUploadedImage
  steady_setIsLoading steady_setIsMounted steady_setSidebarOpen
  steady_set_transcript steady_set_listening steady_fetch steady_append
  steady_speak steady_speechSynthesis_next well_flagged_user
  well_flagged_assistant : steady.

Ltac steady_step :=
  first [ solve [auto with steady] | apply steady_bind; [| intro ] ].

Lemma steady_askGroq r : steady (askGroq r).
Proof.
  unfold askGroq.
  destruct (negb _ || negb _); [auto with steady|].
  repeat steady_step.
  - apply steady_append. apply (well_flagged_user (input r)).
  - destruct (uploadedImage r); repeat steady_step.
Qed.

Lemma steady_askGroq_settled r o : steady (askGroq_settled r o).
Proof.
  unfold askGroq_settled.
  destruct (response_content o); repeat steady_step.
Qed.

Lemma steady_launch r (m : Act (option Request)) : steady m -> steady (launch r m).
Proof.
  intros Hm w. unfold launch. specialize (Hm w).
  destruct (m w) as [[request|] w1]; cbn in *; [|assumption].
  apply progress_trans with w1; [assumption | now apply progress_frame].
Qed.

Lemma steady_resume i o : steady (resume i o).
Proof.
  intro w. unfold resume.
  destruct (nth_error (inflight w) i) as [r|]; [|apply progress_refl].
  eapply progress_trans; [| apply steady_askGroq_settled].
  now apply progress_frame.
Qed.

Lemma steady_voiceStopEffect r : steady (voiceStopEffect r).
Proof.
  unfold voiceStopEffect.
  destruct (negb _ && _); [apply steady_askGroq | apply steady_ret].
Qed.

Lemma steady_onKeyDown r key : steady (onKeyDown r key).
Proof.
  unfold onKeyDown.
  destruct (_ && _); [apply steady_askGroq | apply steady_ret].
Qed.

Lemma steady_mirrorEffect r : steady (mirrorEffect r).
Proof. unfold mirrorEffect. destruct (listening r); auto with steady. Qed.

Lemma steady_handleVoice r : steady (handleVoice r).
Proof.
  unfold handleVoice, stopListening, startListening, resetTranscript.
  destruct (listening r); repeat steady_step.
Qed.

Lemma steady_handleImageUpload files : steady (handleImageUpload files).
Proof.
  unfold handleImageUpload. destruct files as [[|f fs]|]; auto with steady.
Qed.

#[local] Hint Resolve steady_askGroq steady_askGroq_settled steady_launch
  steady_resume steady_voiceStopEffect steady_onKeyDown steady_mirrorEffect
  steady_handleVoice steady_handleImageUpload : steady.

Lemma steady_handle e : steady (handle e).
Proof.
  intro w. unfold handle, mountEffect.
  destruct e;
    try match goal with
        | |- context [if ?c then _ else _] => destruct c; [|apply progress_refl]
        end;
    match goal with
    | |- progress w (snd (?m w)) =>
        let H := fresh in assert (H : steady m) by auto with steady; apply H
    end.
Qed.

Lemma steady_run_effects prev cur : steady (run_effects prev cur).
Proof.
  unfold run_effects.
  apply steady_bind; [|intro].
  - destruct (mirror_deps_changed prev cur); auto with steady.
  - destruct (voiceStop_deps_changed prev cur); auto with steady.
Qed.

Lemma progress_rerender fuel : forall prev w, progress w (rerender fuel prev w).
Proof.
  induction fuel as [|n IH]; intros prev w; cbn; [apply progress_refl|].
  destruct (_ || _); [|apply progress_refl].
  eapply progress_trans; [apply steady_run_effects | apply IH].
Qed.

(** One event of the page makes progress. *)
Lemma progress_step w e : progress w (step w e).
Proof.
  unfold step.
  eapply progress_trans; [apply (steady_handle e) | apply progress_rerender].
Qed.

(** And so does every sequence of events. *)
Lemma progress_run events : forall w, progress w (run w events).
Proof.
  induction events as [|e events IH]; intro w; cbn; [apply progress_refl|].
  eapply progress_trans; [apply progress_step | apply IH].
Qed.


(** ** The effects settle *)

Ltac split_ifs :=
  repeat (match goal with
          | |- context [if ?c then _ else _] => destruct c
          | |- context [match ?o with Some _ => _ | None => _ end] => destruct o
          | |- context [match ?l with [] => _ | _ :: _ => _ end] => destruct l
          end; cbn).

Lemma askGroq_unchanged s : askGroq_changed s s = false.
Proof.
  unfold askGroq_changed.
  rewrite String.eqb_refl, Bool.eqb_reflx.
  destruct (list_eq_dec Message_eq_dec (messages s) (messages s)); [|congruence].
  destruct (uploadedImage s) as [f|]; [|reflexivity].
  destruct (File_eq_dec f f); [reflexivity | congruence].
Qed.

Lemma deps_unchanged s :
  mirror_deps_changed s s || voiceStop_deps_changed s s = false.
Proof.
  unfold mirror_deps_changed, voiceStop_deps_changed.
  now rewrite askGroq_unchanged, String.eqb_refl, Bool.eqb_reflx.
Qed.

Lemma rerender_quiescent n w : rerender n (state w) w = w.
Proof. destruct n; cbn; [reflexivity | now rewrite deps_unchanged]. Qed.

(** The effects of a commit leave the recognition alone, and what they
    leave behind no longer submits: they changed nothing, or the microphone
    is on, or the text field is empty. *)
Lemma run_effects_outcome prev w :
  let w2 := exec (run_effects prev (state w)) w in
  transcript (state w2) = transcript (state w) /\
  listening (state w2) = listening (state w) /\
  (w2 = w \/ listening (state w2) = true \/ input (state w2) = "").
Proof.
  destruct w as [[inp img msgs loading mounted sidebar tr lis sup] synth calls fs infl].
  unfold run_effects, exec, mirrorEffect, voiceStopEffect, launch, askGroq, bind.
  cbn.
  destruct (mirror_deps_changed prev _), (voiceStop_deps_changed prev _), lis; cbn; auto.
  all: split_ifs; auto.
Qed.

(** Such a world is a fixed point of the effects. *)
Lemma run_effects_idle prev w :
  transcript (state w) = transcript prev ->
  listening (state w) = listening prev ->
  listening (state w) = true \/ input (state w) = "" ->
  exec (run_effects prev (state w)) w = w.
Proof.
  intros Ht Hl Hidle.
  unfold run_effects, exec, bind.
  replace (mirror_deps_changed prev (state w)) with false.
  2:{ unfold mirror_deps_changed. rewrite Ht, Hl.
      now rewrite String.eqb_refl, Bool.eqb_reflx. }
  cbn. destruct (voiceStop_deps_changed prev (state w)); [|reflexivity].
  unfold launch, voiceStopEffect, askGroq.
  destruct Hidle as [Hon | Hempty].
  - rewrite Hon. reflexivity.
  - rewrite Hempty. cbn. destruct (negb (listening (state w)) && _); reflexivity.
Qed.

(** More fuel than two rounds of effects changes nothing: [step] runs the
    effects to their fixed point. *)
Lemma rerender_settles n prev w : rerender (2 + n) prev w = rerender 2 prev w.
Proof.
  cbn [Nat.add rerender].
  destruct (_ || _); [|reflexivity].
  set (w2 := exec (run_effects prev (state w)) w).
  destruct (run_effects_outcome prev w) as (Ht & Hl & Hcases). fold w2 in Ht, Hl, Hcases.
  assert (Hidle : exec (run_effects (state w) (state w2)) w2 = w2).
  { destruct Hcases as [Hsame | Hidle].
    - rewrite Hsame. unfold run_effects, exec, bind.
      pose proof (deps_unchanged (state w)) as Hd.
      apply Bool.orb_false_iff in Hd. destruct Hd as [-> ->]. reflexivity.
    - now apply run_effects_idle. }
  rewrite Hidle.
  destruct (_ || _); [|reflexivity].
  apply rerender_quiescent.
Qed.

(** ** One turn *)

Lemma truthy_string_true s : s <> "" -> JS.truthy_string s = true.
Proof. destruct s; [congruence | reflexivity]. Qed.

Lemma askGroq_guard_passes r :
  JS.trim (input r) <> "" -> isMounted r = true ->
  negb (JS.truthy_string (JS.trim (input r))) || negb (isMounted r) = false.
Proof. intros Hin ->. now rewrite (truthy_string_true _ Hin). Qed.

(** What [askGroq] does up to its [fetch], once past its guard. *)
Lemma askGroq_accepted r w :
  JS.trim (input r) <> "" -> isMounted r = true ->
  fst (askGroq r w) = Some (turn_request r) /\
  messages (state (snd (askGroq r w))) =
    (messages (state w) ++ [user_message (input r)])%list /\
  fetches (snd (askGroq r w)) = (fetches w ++ [turn_request r])%list /\
  input (state (snd (askGroq r w))) = "" /\
  isLoading (state (snd (askGroq r w))) = true /\
  uploadedImage (state (snd (askGroq r w))) =
    match uploadedImage r with
    | Some _ => None
    | None => uploadedImage (state w)
    end.
Proof.
  intros Hin Hm. unfold askGroq, turn_request.
  rewrite (askGroq_guard_passes r Hin Hm).
  destruct (uploadedImage r); cbn; auto 10.
Qed.

(** What its guard turns away leaves no trace. *)
Lemma askGroq_rejected r w :
  JS.trim (input r) = "" \/ isMounted r = false -> askGroq r w = (None, w).
Proof.
  intros [H | H]; unfold askGroq; rewrite H; cbn; [reflexivity|].
  now rewrite Bool.orb_true_r.
Qed.

(** What [askGroq] does once its [fetch] has settled. *)
Lemma askGroq_settled_spec r o w :
  let w' := exec (askGroq_settled r o) w in
  messages (state w') = (messages (state w) ++ [reply_message o])%list /\
  input (state w') = input (state w) /\
  uploadedImage (state w') = uploadedImage (state w) /\
  isLoading (state w') = false /\
  fetches w' = fetches w /\
  isMounted (state w') = isMounted (state w) /\
  listening (state w') = listening (state w).
Proof.
  unfold askGroq_settled, reply_message, speak, exec, bind, speechSynthesis_in_window.
  destruct (response_content o); cbn.
  all: destruct (negb (isMounted r) || negb _); cbn; auto 10.
Qed.

Lemma reply_is_assistant o : role (reply_message o) = assistant.
Proof. unfold reply_message. destruct (response_content o); reflexivity. Qed.

Lemma reply_flag o :
  (error (reply_message o) = Some true <-> turn_fails o) /\
  (error (reply_message o) = None <-> ~ turn_fails o).
Proof.
  unfold reply_message, turn_fails.
  destruct (response_content o) as [e|c]; cbn.
  - split; [split; [eauto | reflexivity] |].
    split; [discriminate | intros H; exfalso; apply H; eauto].
  - split; [split; [discriminate | intros [m H]; discriminate] |].
    split; [intros _ [m H]; discriminate | reflexivity].
Qed.

(** ** Before the first commit *)

Lemma handle_keeps_blank e w :
  mounted_or_blank w -> mounted_or_blank (exec (handle e) w).
Proof.
  unfold mounted_or_blank. intros Hinv.
  destruct e; try exact Hinv.
  all: try match goal with
         | |- context [handle (Settled ?i ?o)] =>
             unfold exec, handle, resume;
             destruct (nth_error (inflight w) i) as [r|]; [|exact Hinv];
             match goal with
             | |- context [askGroq_settled r o ?w0] =>
                 destruct (askGroq_settled_spec r o w0)
                   as (_ & Hi & _ & _ & _ & Hm & Hl)
             end;
             unfold exec in Hi, Hm, Hl; rewrite Hi, Hm, Hl; exact Hinv
         end.
  all: destruct w as [[inp img msgs loading mounted sidebar tr lis sup] synth calls fs infl].
  all: unfold exec, handle, rendered, mountEffect, launch, onKeyDown, askGroq,
         askButton_disabled, handleVoice, handleImageUpload, stopListening,
         startListening, resetTranscript, bind in *; cbn in *.
  all: destruct mounted; cbn; [|destruct Hinv as [Hm | [-> ->]]; [discriminate Hm|]];
         cbn; auto.
  all: split_ifs; auto.
Qed.

Lemma run_effects_keeps_blank prev w :
  mounted_or_blank w -> mounted_or_blank (exec (run_effects prev (state w)) w).
Proof.
  unfold mounted_or_blank.
  destruct w as [[inp img msgs loading mounted sidebar tr lis sup] synth calls fs infl].
  unfold run_effects, exec, mirrorEffect, voiceStopEffect, launch, askGroq, bind.
  cbn. intros Hinv.
  destruct mounted; cbn; [|destruct Hinv as [Hm | [-> ->]]; [discriminate Hm|]]; cbn.
  all: destruct (mirror_deps_changed prev _), (voiceStop_deps_changed prev _); cbn; auto.
  all: split_ifs; auto.
Qed.

Lemma on_page_rerender fuel :
  forall prev w, on_page w -> on_page (rerender fuel prev w).
Proof.
  induction fuel as [|n IH]; intros prev w Hw; cbn; [exact Hw|].
  destruct (_ || _); [|exact Hw].
  apply IH. now apply on_page_effects.
Qed.

Lemma on_page_step w e : on_page w -> on_page (step w e).
Proof. intros Hw. unfold step. apply on_page_rerender. now apply on_page_handle. Qed.

(** Every world the page reaches by a sequence of events is one of them. *)
Lemma on_page_run events : forall w, on_page w -> on_page (run w events).
Proof.
  induction events as [|e events IH]; intros w Hw; [exact Hw|].
  change (on_page (run (step w e) events)). apply IH. now apply on_page_step.
Qed.

(** Until the page is mounted, its text field is empty and its microphone
    is off. *)
Lemma on_page_mounted_or_blank w : on_page w -> mounted_or_blank w.
Proof.
  induction 1 as [synth supported | w e _ IH | w prev _ IH].
  - right. split; reflexivity.
  - now apply handle_keeps_blank.
  - now apply run_effects_keeps_blank.
Qed.

(** So a text field that is not blank belongs to a mounted page. *)
Lemma not_blank_mounted w :
  on_page w -> JS.trim (input (state w)) <> "" -> isMounted (state w) = true.
Proof.
  intros Hw Hne.
  destruct (on_page_mounted_or_blank w Hw) as [Hm | [Hin _]]; [exact Hm|].
  rewrite Hin in Hne. now elim Hne.
Qed.


(** ** The commit after the capture has stopped *)

(** [askGroq] leaves the recognition and the pending invocations alone. *)
Lemma askGroq_keeps_recognition r w :
  transcript (state (snd (askGroq r w))) = transcript (state w) /\
  listening (state (snd (askGroq r w))) = listening (state w) /\
  inflight (snd (askGroq r w)) = inflight w.
Proof.
  unfold askGroq. destruct (negb _ || negb _); [now repeat split|].
  destruct (uploadedImage r); now repeat split.
Qed.

Lemma rerender_S n prev w :
  rerender (S n) prev w =
    if mirror_deps_changed prev (state w) || voiceStop_deps_changed prev (state w)
    then rerender n (state w) (exec (run_effects prev (state w)) w)
    else w.
Proof. reflexivity. Qed.

Lemma rerender_idle n prev w :
  exec (run_effects prev (state w)) w = w -> rerender n prev w = w.
Proof.
  destruct n; cbn; [reflexivity|]. intros H.
  destruct (_ || _); [|reflexivity]. rewrite H. apply rerender_quiescent.
Qed.

(** The commit that follows the end of the capture runs the effect of lines
    114-118 once, and the commit after that changes nothing. *)
Lemma capture_end_step w :
  listening (state w) = true ->
  isMounted (state w) = true ->
  JS.trim (transcript (state w)) <> "" ->
  JS.trim (input (state w)) <> "" ->
  step w RecognitionEnded
  = exec (launch (state (stopped w)) (askGroq (state (stopped w)))) (stopped w).
Proof.
  intros Hl Hm Ht Hin.
  unfold step. change (exec (handle RecognitionEnded) w) with (stopped w).
  assert (Hdeps : mirror_deps_changed (state w) (state (stopped w)) = true).
  { unfold mirror_deps_changed. cbn. rewrite Hl. cbn. apply Bool.orb_true_r. }
  assert (Hdeps' : voiceStop_deps_changed (state w) (state (stopped w)) = true).
  { unfold voiceStop_deps_changed. cbn. rewrite Hl. reflexivity. }
  assert (Heff : exec (run_effects (state w) (state (stopped w))) (stopped w)
                 = exec (launch (state (stopped w)) (askGroq (state (stopped w))))
                     (stopped w)).
  { unfold run_effects, exec, bind. rewrite Hdeps, Hdeps'.
    unfold mirrorEffect, voiceStopEffect. cbn.
    now rewrite (truthy_string_true _ Ht). }
  rewrite rerender_S, Hdeps. cbn [orb]. rewrite Heff.
  apply rerender_idle.
  destruct (askGroq_accepted (state (stopped w)) (stopped w) Hin Hm)
    as (Hreq & _ & _ & Hempty & _).
  unfold exec, launch.
  destruct (askGroq (state (stopped w)) (stopped w)) as [[request|] w2] eqn:Hsent;
    cbn in Hreq, Hempty |- *; [|discriminate Hreq].
  destruct (askGroq_keeps_recognition (state (stopped w)) (stopped w))
    as (Htr & Hli & _).
  rewrite Hsent in Htr, Hli. cbn in Htr, Hli.
  match goal with
  | |- snd (run_effects ?prev _ ?W) = _ => apply (run_effects_idle prev W)
  end; cbn; auto.
Qed.
(** ** A turn on the page *)

(** A turn, in any closure that passes the guard of [askGroq] and any
    world. *)
Lemma askGroq_turn r w o :
  JS.trim (input r) <> "" ->
  isMounted r = true ->
  let sent := askGroq r w in
  let w1 := snd sent in
  let w2 := exec (askGroq_settled r o) w1 in
  (fst sent = Some (turn_request r) /\
   messages (state w1) = (messages (state w) ++ [user_message (input r)])%list /\
   fetches w1 = (fetches w ++ [turn_request r])%list) /\
  (role (reply_message o) = assistant /\
   forall w', messages (state (exec (askGroq_settled r o) w'))
              = (messages (state w') ++ [reply_message o])%list) /\
  messages (state w2)
    = (messages (state w) ++ [user_message (input r); reply_message o])%list /\
  List.length (messages (state w2)) = (List.length (messages (state w)) + 2)%nat.
Proof.
  intros Hin Hm sent w1 w2.
  destruct (askGroq_accepted r w Hin Hm) as (Hreq & Hmsg & Hfetch & _).
  assert (H2 : messages (state w2)
               = (messages (state w) ++ [user_message (input r); reply_message o])%list).
  { unfold w2. destruct (askGroq_settled_spec r o w1) as (-> & _).
    unfold w1, sent. rewrite Hmsg, <- app_assoc. reflexivity. }
  repeat split; try assumption.
  - apply reply_is_assistant.
  - intro w'. apply (askGroq_settled_spec r o w').
  - rewrite H2, length_app. reflexivity.
Qed.

(** C1.  Wherever the page runs a handler or an effect, a turn submitted
    with an input that is not empty once trimmed appends exactly one user
    message to the history before the request leaves, and exactly one
    assistant message, the content of the response or the report of the
    error, once the request has settled, whatever happened to the page in
    between: the history grows by two over the turn on the success and on
    the failure path alike, and no sequence of events ever shortens it. *)
Theorem turn_appends_two w o :
  on_page w ->
  let r := state w in
  JS.trim (input r) <> "" ->
  let sent := askGroq r w in
  let w1 := snd sent in
  let w2 := exec (askGroq_settled r o) w1 in
  (fst sent = Some (turn_request r) /\
   messages (state w1) = (messages r ++ [user_message (input r)])%list /\
   fetches w1 = (fetches w ++ [turn_request r])%list) /\
  (role (reply_message o) = assistant /\
   forall w', messages (state (exec (askGroq_settled r o) w'))
              = (messages (state w') ++ [reply_message o])%list) /\
  messages (state w2)
    = (messages r ++ [user_message (input r); reply_message o])%list /\
  List.length (messages (state w2)) = (List.length (messages r) + 2)%nat /\
  (forall w0 more_events, exists more,
      messages (state (run w0 more_events)) = (messages (state w0) ++ more)%list).
Proof.
  intros Hw r Hin sent w1 w2.
  assert (Hm : isMounted r = true) by now apply not_blank_mounted.
  destruct (askGroq_turn r w o Hin Hm) as (H1 & H2 & H3 & H4).
  repeat split; try assumption; try apply H1; try apply H2.
  intros w0 more_events.
  destruct (progress_run more_events w0) as [(more & Hmore & _) _]. eauto.
Qed.

(** C8.  Wherever the page runs a handler or an effect, once a turn is
    submitted the text field is empty and no image is attached, and the
    settling of the request, with whatever outcome, leaves both as they
    are. *)
Theorem pending_cleared w o :
  on_page w ->
  let r := state w in
  JS.trim (input r) <> "" ->
  let w1 := snd (askGroq r w) in
  let w2 := exec (askGroq_settled r o) w1 in
  (input (state w1) = "" /\ uploadedImage (state w1) = None) /\
  (input (state w2) = "" /\ uploadedImage (state w2) = None) /\
  (forall w', input (state (exec (askGroq_settled r o) w')) = input (state w') /\
              uploadedImage (state (exec (askGroq_settled r o) w'))
              = uploadedImage (state w')).
Proof.
  intros Hw r Hin w1 w2.
  assert (Hm : isMounted r = true) by now apply not_blank_mounted.
  destruct (askGroq_accepted r w Hin Hm) as (_ & _ & _ & Hinput & _ & Himg).
  assert (Himg1 : uploadedImage (state w1) = None).
  { unfold w1. rewrite Himg. unfold r. now destruct (uploadedImage (state w)). }
  destruct (askGroq_settled_spec r o w1) as (_ & Hi2 & Hu2 & _).
  repeat split.
  - exact Hinput.
  - exact Himg1.
  - unfold w2. now rewrite Hi2.
  - unfold w2. now rewrite Hu2.
  - apply (askGroq_settled_spec r o w').
  - apply (askGroq_settled_spec r o w').
Qed.

(** C10.  The message [askGroq] appends before its request is a user message
    without the error flag; the one it appends after is an assistant message
    that carries the flag exactly when the turn failed; and in every history
    the page can reach, a flagged message is an assistant message and no
    user message is flagged. *)
Theorem error_flag_on_failed_replies_only :
  (forall r w,
      let w1 := snd (askGroq r w) in
      messages (state w1) = messages (state w) \/
      messages (state w1) = (messages (state w) ++ [user_message (input r)])%list) /\
  (forall r o w,
      messages (state (exec (askGroq_settled r o) w))
      = (messages (state w) ++ [reply_message o])%list /\
      role (reply_message o) = assistant /\
      (error (reply_message o) = Some true <-> turn_fails o) /\
      (error (reply_message o) = None <-> ~ turn_fails o)) /\
  (forall synth supported events,
      Forall well_flagged
        (messages (state (run (initial synth supported) events)))).
Proof.
  split; [|split].
  - intros r w w1. unfold w1.
    destruct (string_dec (JS.trim (input r)) "") as [He | Hne].
    { left. rewrite askGroq_rejected; auto. }
    destruct (isMounted r) eqn:Hm.
    + right. apply (askGroq_accepted r w Hne Hm).
    + left. rewrite askGroq_rejected; auto.
  - intros r o w. split; [apply (askGroq_settled_spec r o w)|].
    split; [apply reply_is_assistant | apply reply_flag].
  - intros synth supported events.
    destruct (progress_run events (initial synth supported)) as [(more & -> & Hall) _].
    exact Hall.
Qed.

(** C9.  Starting from a synthesiser that holds at most one utterance, it
    holds at most one after every sequence of events of the page and after
    every call of [speak].  A call of [speak] on a mounted page with a
    synthesiser, whatever is being spoken or waiting, calls [cancel] and
    then [speak]: the new utterance is the only one left in the queue.  A
    call that starts no utterance (not mounted, or no synthesiser) changes
    nothing at all. *)
Theorem one_utterance_at_a_time w0 events mounted t :
  at_most_one_utterance w0 ->
  let w := run w0 events in
  let w' := exec (speak mounted t) w in
  let utterance := {| text := t; rate := 1; pitch := 1 |} in
  at_most_one_utterance w /\
  at_most_one_utterance w' /\
  match mounted, speechSynthesis w with
  | true, Some queue =>
      synthCalls w' = (synthCalls w ++ [Cancel; Speak utterance])%list /\
      speechSynthesis w' = Some [utterance] /\
      state w' = state w
  | _, _ => w' = w
  end.
Proof.
  intros H0 w w' utterance.
  assert (Hw : at_most_one_utterance w) by (apply (progress_run events w0); exact H0).
  split; [exact Hw|]. split.
  - apply (steady_speak mounted t w). exact Hw.
  - unfold w', exec, speak, bind, speechSynthesis_in_window. cbn.
    destruct mounted; cbn; [|reflexivity].
    destruct (speechSynthesis w) as [queue|] eqn:Hs; cbn; [|reflexivity].
    rewrite Hs, <- app_assoc. cbn. auto.
Qed.

(** ** The in-flight flag *)

(** The flag is up from the submission of a turn to the settling of its
    request. *)
Lemma flag_over_the_turn r w o :
  JS.trim (input r) <> "" -> isMounted r = true ->
  isLoading (state (snd (askGroq r w))) = true /\
  forall w', isLoading (state (exec (askGroq_settled r o) w')) = false.
Proof.
  intros Hin Hm. split.
  - apply (askGroq_accepted r w Hin Hm).
  - intro w'. apply (askGroq_settled_spec r o w').
Qed.

(** The Enter key starts nothing while the flag is up. *)
Lemma onKeyDown_in_flight r key w :
  isLoading r = true -> onKeyDown r key w = (None, w).
Proof.
  intros H. unfold onKeyDown. rewrite H. now rewrite Bool.andb_false_r.
Qed.

(** Neither does the ask button, which is disabled. *)
Lemma askButton_in_flight r : isLoading r = true -> askButton_disabled r = true.
Proof. intros H. unfold askButton_disabled. now rewrite H. Qed.

(** No event of the text field, the ask button or the microphone button
    does anything while the flag is up. *)
Lemma guarded_events_in_flight w e :
  isLoading (state w) = true ->
  match e with
  | Typed _ | KeyDown _ | ClickAsk | ClickVoice => exec (handle e) w = w
  | _ => True
  end.
Proof.
  intros H. destruct e; try exact I; unfold exec, handle, askButton_disabled;
    rewrite H; cbn; now rewrite Bool.andb_false_r.
Qed.

(** [askGroq] itself never reads the flag. *)
Lemma askGroq_ignores_isLoading inp img msgs l1 l2 mounted sidebar tr lis sup w :
  askGroq (mkState inp img msgs l1 mounted sidebar tr lis sup) w
  = askGroq (mkState inp img msgs l2 mounted sidebar tr lis sup) w.
Proof. reflexivity. Qed.

(** C2 (the code at the failing input).  A turn is in flight, started with
    the Enter key while the microphone was on, and the recognition has heard
    more since.  When the recognition ends, the effect of lines 114-118
    calls [askGroq], which passes its guard although [isLoading] is true:
    a second user message is appended and a second request leaves while the
    first one is still pending.  When the first request settles, its
    [finally] lowers the flag while the second turn is still in flight. *)
Theorem second_turn_while_in_flight :
  let w := listening_while_loading in
  let w' := step w RecognitionEnded in
  let w'' := step w' (Settled 0 (Ok (inr (success_json "Hello!")))) in
  (isLoading (state w) = true /\
   List.length (inflight w) = 1%nat /\
   messages (state w) = [user_message "hello"] /\
   List.length (fetches w) = 1%nat) /\
  fst (voiceStopEffect (state (stopped w)) (stopped w))
    = Some {| form_messages := [user_message "hello"; user_message "hello world"];
              form_image := None |} /\
  (isLoading (state w') = true /\
   messages (state w') = [user_message "hello"; user_message "hello world"] /\
   List.length (fetches w') = 2%nat /\
   List.length (inflight w') = 2%nat) /\
  (isLoading (state w'') = false /\
   List.length (inflight w'') = 1%nat).
Proof. vm_compute. repeat split. Qed.

(** ** The end of voice capture *)

(** C7 as stated fails when the text field was edited during the capture:
    the recognition heard "hello", the user typed an "x" after it and
    switched the microphone off; the turn that is submitted carries the text
    of the field, not the final transcript. *)
Lemma voice_stop_submits_the_text_field :
  let w := edited_while_listening in
  let w' := step w ClickVoice in
  (listening (state w) = true /\ transcript (state w) = "hello") /\
  (listening (state w') = false /\ transcript (state w') = "hello") /\
  messages (state w') = [user_message "hellox"] /\
  fetches w' = [{| form_messages := [user_message "hellox"]; form_image := None |}] /\
  content (user_message "hellox") <> transcript (state w').
Proof. vm_compute. repeat split. discriminate. Qed.

(** The effect of lines 114-118, in a render where the capture has stopped
    and the text field mirrors the transcript. *)
Lemma voiceStopEffect_submits r w :
  isMounted r = true ->
  listening r = false ->
  JS.trim (transcript r) <> "" ->
  input r = transcript r ->
  let sent := voiceStopEffect r w in
  let w1 := snd sent in
  fst sent = Some (turn_request r) /\
  form_messages (turn_request r)
    = (messages r ++ [user_message (transcript r)])%list /\
  messages (state w1) = (messages (state w) ++ [user_message (transcript r)])%list /\
  fetches w1 = (fetches w ++ [turn_request r])%list /\
  voiceStopEffect (state w1) w1 = (None, w1).
Proof.
  intros Hm Hl Ht Hin sent w1.
  assert (Hin' : JS.trim (input r) <> "") by now rewrite Hin.
  destruct (askGroq_accepted r w Hin' Hm) as (Hreq & Hmsg & Hfetch & Hinput & _).
  assert (Hsent : sent = askGroq r w).
  { unfold sent, voiceStopEffect. now rewrite Hl, (truthy_string_true _ Ht). }
  unfold w1. rewrite Hsent. repeat split.
  - exact Hreq.
  - unfold turn_request. cbn. now rewrite Hin.
  - now rewrite Hmsg, Hin.
  - exact Hfetch.
  - unfold voiceStopEffect.
    destruct (negb _ && _); [|reflexivity].
    apply askGroq_rejected. left. now rewrite Hinput.
Qed.

(** C7 (as amended).  On the page, when the capture stops with a final
    transcript that is not empty once trimmed and that the text field still
    mirrors, exactly one turn is submitted, and
    its user message is the final transcript: over the whole step one
    message is appended, one request leaves and one invocation waits for
    it.  Switching the microphone off with its button is the same step. *)
Theorem capture_end_submits_transcript w :
  on_page w ->
  listening (state w) = true ->
  JS.trim (transcript (state w)) <> "" ->
  input (state w) = transcript (state w) ->
  let said := user_message (transcript (state w)) in
  let request := {| form_messages := (messages (state w) ++ [said])%list;
                    form_image := uploadedImage (state w) |} in
  let w' := step w RecognitionEnded in
  fst (voiceStopEffect (state (stopped w)) (stopped w)) = Some request /\
  (listening (state w') = false /\ transcript (state w') = transcript (state w)) /\
  messages (state w') = (messages (state w) ++ [said])%list /\
  fetches w' = (fetches w ++ [request])%list /\
  inflight w' = (inflight w ++ [state (stopped w)])%list /\
  (rendered (state w) = true -> isLoading (state w) = false ->
   step w ClickVoice = w').
Proof.
  intros Hw Hl Ht Hmirror said request w'.
  assert (Hin : JS.trim (input (state w)) <> "") by now rewrite Hmirror.
  assert (Hm : isMounted (state w) = true) by now apply not_blank_mounted.
  assert (Hstep : w' = exec (launch (state (stopped w)) (askGroq (state (stopped w))))
                         (stopped w))
    by (apply capture_end_step; assumption).
  destruct (voiceStopEffect_submits (state (stopped w)) (stopped w))
    as (Hreq & _ & Hmsg & Hfetch & _); try assumption; try reflexivity.
  assert (Hrequest : turn_request (state (stopped w)) = request).
  { unfold turn_request, request, said. cbn. now rewrite Hmirror. }
  assert (Hask : voiceStopEffect (state (stopped w)) (stopped w)
                 = askGroq (state (stopped w)) (stopped w)).
  { unfold voiceStopEffect. cbn. now rewrite (truthy_string_true _ Ht). }
  rewrite Hrequest in Hreq, Hfetch. rewrite Hask in Hreq, Hmsg, Hfetch.
  destruct (askGroq_keeps_recognition (state (stopped w)) (stopped w))
    as (Htr & Hli & Hinfl).
  assert (Hbutton : rendered (state w) = true -> isLoading (state w) = false ->
                    step w ClickVoice = w').
  { intros Hrendered Hidle. unfold w', step.
    replace (exec (handle ClickVoice) w) with (exec (handle RecognitionEnded) w);
      [reflexivity|].
    unfold exec, handle, handleVoice, stopListening.
    now rewrite Hrendered, Hidle, Hl. }
  split; [now rewrite Hask|].
  rewrite Hstep in *. unfold exec, launch in *.
  destruct (askGroq (state (stopped w)) (stopped w)) as [[sent_request|] w1];
    cbn in Hreq, Hmsg, Hfetch, Htr, Hli, Hinfl |- *; [|discriminate Hreq].
  split; [split; assumption|]. split; [assumption|]. split; [assumption|].
  split; [now rewrite Hinfl | assumption].
Qed.

(** ** The theorems at concrete inputs *)

Ltac by_evaluation H := vm_compute in H; vm_compute; exact H.

Lemma typed_hi_on_page : on_page typed_hi.
Proof. apply on_page_run, on_page_initial. Defined.

Lemma typed_hi_not_blank : JS.trim (input (state typed_hi)) <> "".
Proof. intro H. vm_compute in H. discriminate H. Defined.

Lemma turn_appends_two_example :
  on_page typed_hi /\
  JS.trim (input (state typed_hi)) <> "" /\
  messages (state (exec (askGroq_settled (state typed_hi) (Ok (inr (success_json "Hello!"))))
                     (snd (askGroq (state typed_hi) typed_hi))))
  = [user_message "hi";
     {| role := assistant; content := "Hello!"; error := None |}] /\
  messages (state (exec (askGroq_settled (state typed_hi) (Rejected "Failed to fetch"))
                     (snd (askGroq (state typed_hi) typed_hi))))
  = [user_message "hi";
     {| role := assistant; content := "Error: Failed to fetch"; error := Some true |}].
Proof.
  split; [exact typed_hi_on_page|]. split; [exact typed_hi_not_blank|]. split.
  - pose proof (turn_appends_two typed_hi (Ok (inr (success_json "Hello!")))
                  typed_hi_on_page typed_hi_not_blank) as H.
    cbv zeta in H. destruct H as (_ & _ & H & _). by_evaluation H.
  - pose proof (turn_appends_two typed_hi (Rejected "Failed to fetch")
                  typed_hi_on_page typed_hi_not_blank) as H.
    cbv zeta in H. destruct H as (_ & _ & H & _). by_evaluation H.
Defined.

Lemma pending_cleared_example :
  on_page typed_hi /\
  JS.trim (input (state typed_hi)) <> "" /\
  input (state (snd (askGroq (state typed_hi) typed_hi))) = "" /\
  uploadedImage (state (snd (askGroq (state typed_hi) typed_hi))) = None.
Proof.
  split; [exact typed_hi_on_page|]. split; [exact typed_hi_not_blank|].
  exact (proj1 (pending_cleared typed_hi (Rejected "Failed to fetch")
                  typed_hi_on_page typed_hi_not_blank)).
Defined.

Lemma one_utterance_at_a_time_example :
  at_most_one_utterance (initial (Some []) true) /\
  speechSynthesis
    (run (initial (Some []) true)
       [Mounted; Typed "hi"; KeyDown "Enter";
        Settled 0 (Ok (inr (success_json "Hello!")))])
  = Some [{| text := "Hello!"; rate := 1; pitch := 1 |}] /\
  speechSynthesis
    (exec (speak true "again")
       (run (initial (Some []) true)
          [Mounted; Typed "hi"; KeyDown "Enter";
           Settled 0 (Ok (inr (success_json "Hello!")))]))
  = Some [{| text := "again"; rate := 1; pitch := 1 |}].
Proof.
  assert (H0 : at_most_one_utterance (initial (Some []) true)) by (cbn; lia).
  split; [exact H0|]. split; [vm_compute; reflexivity|].
  pose proof (one_utterance_at_a_time (initial (Some []) true)
                [Mounted; Typed "hi"; KeyDown "Enter";
                 Settled 0 (Ok (inr (success_json "Hello!")))]
                true "again" H0) as H.
  cbv zeta in H. destruct H as (_ & _ & H).
  vm_compute in H. destruct H as (_ & H & _). vm_compute. exact H.
Defined.

Lemma heard_hello_not_blank : JS.trim (transcript (state heard_hello)) <> "".
Proof. intro H. vm_compute in H. discriminate H. Defined.

Lemma capture_end_submits_transcript_example :
  on_page heard_hello /\
  listening (state heard_hello) = true /\
  JS.trim (transcript (state heard_hello)) <> "" /\
  input (state heard_hello) = transcript (state heard_hello) /\
  messages (state (step heard_hello RecognitionEnded)) = [user_message "hello"] /\
  fetches (step heard_hello RecognitionEnded)
  = [{| form_messages := [user_message "hello"]; form_image := None |}].
Proof.
  assert (Hl : listening (state heard_hello) = true) by (vm_compute; reflexivity).
  assert (Hi : input (state heard_hello) = transcript (state heard_hello))
    by (vm_compute; reflexivity).
  assert (Hw : on_page heard_hello) by apply on_page_run, on_page_initial.
  split; [exact Hw|].
  split; [exact Hl|]. split; [exact heard_hello_not_blank|]. split; [exact Hi|].
  pose proof (capture_end_submits_transcript heard_hello
                Hw Hl heard_hello_not_blank Hi) as H.
  cbv zeta in H. destruct H as (_ & _ & Hmsg & Hfetch & _).
  split; [by_evaluation Hmsg | by_evaluation Hfetch].
Defined.

End ControllerProperties.


(** * More on the Completion Relay *)

Module RelayExtras.

Import Relay RelaySpec RelayMore RelayProperties.

(** The content of a success response is never empty. *)
Lemma completion_content_not_empty completion :
  completion_content completion <> "".
Proof.
  unfold completion_content.
  destruct (choices completion) as [cs|]; [|discriminate].
  destruct (nth_error cs 0) as [c|]; [|discriminate].
  destruct (message c) as [m|]; [|discriminate].
  destruct (msg_content m) as [[|a t]|]; discriminate.
Qed.

Section Facts.

Variable JSON_parse : string -> Except JS.value.
Variable arrayBuffer : File -> Except (list Byte.byte).
Variable create : ProviderCall -> Except Completion.

Local Abbreviation POST := (POST JSON_parse arrayBuffer create).
Local Abbreviation try_block := (try_block JSON_parse arrayBuffer create).
Local Abbreviation parses := (parses JSON_parse arrayBuffer).
Local Abbreviation fails_early := (fails_early JSON_parse arrayBuffer).
Local Abbreviation image_readable := (image_readable arrayBuffer).

Lemma try_block_fails_early apiKey req m :
  fails_early req m -> try_block apiKey req [] = (inl m, []).
Proof.
  unfold Relay.try_block, bind, await, RelayMore.fails_early.
  intros [Hfd | [(fd & Hfd & Hjson) | (fd & messages & f & Hfd & Hjson & Hget & Hab)]].
  - now rewrite Hfd.
  - now rewrite Hfd, Hjson.
  - now rewrite Hfd, Hjson, Hget, Hab.
Qed.

(** Every run of the [try] block fails early or parses the request. *)
Lemma early_or_parses req :
  (exists m, fails_early req m) \/ (exists messages, parses req messages).
Proof.
  unfold RelayMore.fails_early, RelaySpec.parses.
  destruct (req_formData req) as [m|fd] eqn:Hfd; [left; eauto|].
  destruct (JSON_parse (formValue_toString (formData_get "messages" fd)))
    as [m|messages] eqn:Hjson.
  { left. exists m. right. left. eauto. }
  destruct (formData_get "image" fd) as [[s|f]|] eqn:Hget.
  - right. exists messages, fd. rewrite Hget. auto.
  - destruct (arrayBuffer f) as [m|buffer] eqn:Hab.
    + left. exists m. right. right. exists fd, messages, f. auto.
    + right. exists messages, fd. rewrite Hget. eauto.
  - right. exists messages, fd. rewrite Hget. auto.
Qed.

(** The three ways the handler answers. *)
Lemma POST_cases env req :
  (POST env req = (configuration_error, []) /\
   forall apiKey, ~ configured env apiKey) \/
  (exists apiKey m,
      configured env apiKey /\ fails_early req m /\
      POST env req = (processing_failed m, [])) \/
  (exists apiKey messages,
      configured env apiKey /\ parses req messages /\
      POST env req =
        (match create (the_call apiKey messages) with
         | inl m => processing_failed m
         | inr completion =>
             NextResponse_json
               (success_result (completion_content completion)
                  (completion_tokens completion) (model completion)) None
         end,
         [the_call apiKey messages])).
Proof.
  destruct (option_map JS.trim (GROQ_API_KEY env)) as [[|a k]|] eqn:Hk.
  - left. split; [unfold Relay.POST; now rewrite Hk|].
    intros apiKey [H Hne]. rewrite Hk in H. congruence.
  - right. set (apiKey := String a k).
    assert (Hc : configured env apiKey) by (split; [exact Hk | discriminate]).
    rewrite (POST_configured JSON_parse arrayBuffer create env apiKey req Hc).
    destruct (early_or_parses req) as [[m He] | [messages Hp]].
    + left. exists apiKey, m. rewrite (try_block_fails_early apiKey req m He). auto.
    + right. exists apiKey, messages.
      rewrite (try_block_parses JSON_parse arrayBuffer create apiKey req messages Hp).
      destruct (create _); auto.
  - left. split; [unfold Relay.POST; now rewrite Hk|].
    intros apiKey [H Hne]. rewrite Hk in H. discriminate.
Qed.

(** X1.  A credential that is set but consists of white space only counts
    as missing: the handler answers with the configuration error at status
    500 and calls no provider. *)
Theorem blank_credential env req key :
  GROQ_API_KEY env = Some key ->
  JS.trim key = "" ->
  POST env req = (configuration_error, []) /\
  status (fst (POST env req)) = 500%Z.
Proof.
  intros Hk Hblank. unfold Relay.POST. rewrite Hk. cbn. rewrite Hblank. auto.
Qed.

(** X2.  The handler calls the provider at most once per request, and only
    with a configured credential and a request that parsed: the call carries
    the trimmed credential, the parsed messages, the model
    [llama3-70b-8192], the temperature 0.7 and a timeout of 15000
    milliseconds. *)
Theorem provider_called_at_most_once env req :
  snd (POST env req) = [] \/
  exists key messages,
    GROQ_API_KEY env = Some key /\
    JS.trim key <> "" /\
    parses req messages /\
    snd (POST env req) =
      [{| call_apiKey := JS.trim key;
          call_timeout := 15000;
          call_messages := messages;
          call_model := "llama3-70b-8192";
          call_temperature := 7 # 10 |}].
Proof.
  destruct (POST_cases env req)
    as [[-> _] | [(apiKey & m & _ & _ & ->) | (apiKey & messages & [Hk Hne] & Hp & ->)]];
    auto.
  right. destruct (GROQ_API_KEY env) as [key|] eqn:Hkey; [|discriminate Hk].
  cbn in Hk. injection Hk as <-. exists key, messages. auto.
Qed.

(** X3.  When the form data, the message payload or the image cannot be
    read, the handler answers 502 with the message of that failure and the
    provider is never called. *)
Theorem early_failure_makes_no_call env apiKey req m :
  configured env apiKey ->
  fails_early req m ->
  POST env req = (processing_failed m, []).
Proof.
  intros Hc He.
  rewrite (POST_configured JSON_parse arrayBuffer create env apiKey req Hc).
  now rewrite (try_block_fails_early apiKey req m He).
Qed.

(** X4.  The status of a response is 200, 500 or 502, and it is 200 exactly
    when the body carries [success: true]. *)
Theorem ok_status_iff_success env req :
  let response := fst (POST env req) in
  (status response = 200%Z \/ status response = 500%Z \/ status response = 502%Z) /\
  (status response = 200%Z <->
   JS.get (body response) "success" = inr (JS.Bool true)).
Proof.
  destruct (POST_cases env req)
    as [[-> _] | [(apiKey & m & _ & _ & ->) | (apiKey & messages & _ & _ & ->)]];
    cbn.
  - split; [auto|]. split; discriminate.
  - split; [auto|]. split; discriminate.
  - destruct (create _); cbn; (split; [auto|]); split; (discriminate || reflexivity).
Qed.

(** X5.  An image that can be read has no influence on the answer: two
    requests with the same [messages] field get the same response and cause
    the same provider call, whether either carries an image or not and
    whatever readable file it is.  (An image that cannot be read is a
    failure of the request, see X3.) *)
Theorem image_is_ignored env fd fd' :
  formData_get "messages" fd = formData_get "messages" fd' ->
  image_readable fd ->
  image_readable fd' ->
  POST env {| req_formData := inr fd |} = POST env {| req_formData := inr fd' |}.
Proof.
  unfold RelayMore.image_readable. intros Hmsg Hr Hr'. unfold Relay.POST.
  destruct (option_map JS.trim (GROQ_API_KEY env)) as [[|a k]|]; try reflexivity.
  unfold Relay.try_block, bind, await, ret. cbn. rewrite <- Hmsg.
  destruct (JSON_parse _) as [m|messages]; [reflexivity|].
  destruct (formData_get "image" fd) as [[s|f]|];
    destruct (formData_get "image" fd') as [[s'|f']|];
    repeat match goal with
           | H : exists _, _ = inr _ |- _ => destruct H as [? ->]
           end;
    reflexivity.
Qed.

(** X6.  The content of a success response is never the empty string. *)
Theorem success_content_not_empty env req c t m :
  body (fst (POST env req)) = success_result c t m ->
  c <> "".
Proof.
  destruct (POST_cases env req)
    as [[-> _] | [(apiKey & e & _ & _ & ->) | (apiKey & messages & _ & _ & ->)]];
    cbn; try discriminate.
  destruct (create _) as [e|completion]; cbn; [discriminate|].
  unfold success_result. intros H. injection H as <- _ _.
  apply completion_content_not_empty.
Qed.

End Facts.

(** ** Concrete requests *)

Lemma blank_credential_example :
  JS.trim "   " = "" /\
  Relay.POST parse_any read_any (fun _ => inr paris) env_with_blank_key plain_request
  = (configuration_error, []).
Proof.
  split; [reflexivity|].
  exact (proj1 (blank_credential parse_any read_any (fun _ => inr paris)
                  env_with_blank_key plain_request "   " eq_refl eq_refl)).
Defined.

Lemma early_failure_makes_no_call_example :
  Relay.POST (fun _ => inl "Unexpected end of JSON input") read_any
    (fun _ => inr paris) env_with_key plain_request
  = (processing_failed "Unexpected end of JSON input", []).
Proof.
  apply (early_failure_makes_no_call (fun _ => inl "Unexpected end of JSON input")
           read_any (fun _ => inr paris) env_with_key "gsk_test" plain_request
           "Unexpected end of JSON input" env_with_key_configured).
  right. left. exists [("messages", FString "[]")]. split; reflexivity.
Defined.

Lemma snapshot_readable :
  image_readable read_any [("messages", FString "[]"); ("image", FFile snapshot)].
Proof. exists (file_bytes snapshot). reflexivity. Defined.

Lemma image_is_ignored_example :
  image_readable read_any [("messages", FString "[]")] /\
  image_readable read_any [("messages", FString "[]"); ("image", FFile snapshot)] /\
  Relay.POST parse_any read_any (fun _ => inr paris) env_with_key plain_request
  = Relay.POST parse_any read_any (fun _ => inr paris) env_with_key request_with_image.
Proof.
  split; [exact I|]. split; [exact snapshot_readable|].
  exact (image_is_ignored parse_any read_any (fun _ => inr paris) env_with_key
           [("messages", FString "[]")]
           [("messages", FString "[]"); ("image", FFile snapshot)]
           eq_refl I snapshot_readable).
Defined.

Lemma success_content_not_empty_example :
  body (fst (Relay.POST parse_any read_any (fun _ => inr paris)
               env_with_key plain_request))
  = success_result "Paris" 12 "m1" /\
  "Paris" <> "".
Proof.
  split; [reflexivity|].
  exact (success_content_not_empty parse_any read_any (fun _ => inr paris)
           env_with_key plain_request "Paris" 12 "m1" eq_refl).
Defined.

End RelayExtras.


(** * More on the Conversation Controller *)

Module ControllerExtras.

Import Controller ControllerSpec ControllerMore ControllerProperties.

#[local] Arguments JS.trim : simpl never.

(** ** One event is one pass of the effects *)

Lemma second_pass_idle prev w :
  let w2 := exec (run_effects prev (state w)) w in
  exec (run_effects (state w) (state w2)) w2 = w2.
Proof.
  intros w2.
  destruct (run_effects_outcome prev w) as (Ht & Hl & Hcases).
  fold w2 in Ht, Hl, Hcases.
  destruct Hcases as [Hsame | Hidle].
  - rewrite Hsame. unfold run_effects, exec, bind.
    pose proof (deps_unchanged (state w)) as Hd.
    apply Bool.orb_false_iff in Hd. destruct Hd as [-> ->]. reflexivity.
  - now apply run_effects_idle.
Qed.

(** A step is the handler followed by one pass of the effects: the passes
    after the first change nothing. *)
Lemma step_one_pass w e :
  step w e
  = exec (run_effects (state w) (state (exec (handle e) w))) (exec (handle e) w).
Proof.
  unfold step. set (w1 := exec (handle e) w). rewrite rerender_S.
  destruct (mirror_deps_changed (state w) (state w1)) eqn:Hm;
    destruct (voiceStop_deps_changed (state w) (state w1)) eqn:Hv; cbn [orb].
  4:{ unfold run_effects, exec, bind. now rewrite Hm, Hv. }
  all: apply rerender_idle, second_pass_idle.
Qed.

(** An event whose handler does nothing changes nothing. *)
Lemma step_of_idle_handler w e : exec (handle e) w = w -> step w e = w.
Proof.
  intros H. rewrite step_one_pass, H. unfold run_effects, exec, bind.
  pose proof (deps_unchanged (state w)) as Hd.
  apply Bool.orb_false_iff in Hd. destruct Hd as [-> ->]. reflexivity.
Qed.

(** ** Blank input *)

(** X7.  With a text field that is empty or holds white space only,
    [askGroq] returns at its guard, and neither the ask button nor any key,
    Enter included, changes anything on the page: no message, no request,
    no flag. *)
Theorem blank_input_is_ignored w key :
  JS.trim (input (state w)) = "" ->
  askGroq (state w) w = (None, w) /\
  step w ClickAsk = w /\
  step w (KeyDown key) = w.
Proof.
  intros Hblank.
  assert (Hask : askGroq (state w) w = (None, w)) by (apply askGroq_rejected; auto).
  split; [exact Hask|]. split; apply step_of_idle_handler.
  - unfold exec, handle, askButton_disabled. rewrite Hblank. cbn.
    now rewrite Bool.orb_true_r, Bool.andb_false_r.
  - unfold exec, handle, launch, onKeyDown.
    destruct (rendered (state w) && negb (isLoading (state w))); [|reflexivity].
    destruct ((key =? "Enter")%string && negb (isLoading (state w)));
      [now rewrite Hask | reflexivity].
Qed.

(** ** A browser without speech recognition *)

Lemma handle_keeps_unsupported e w :
  unsupported_idle w -> unsupported_idle (exec (handle e) w).
Proof.
  destruct w as [[inp img msgs loading mounted sidebar tr lis sup] synth calls fs infl].
  unfold unsupported_idle. cbn. intros (-> & -> & -> & -> & -> & ->).
  destruct e; unfold exec, handle, rendered, resume, mountEffect; cbn;
    rewrite ?Bool.andb_false_r; cbn; auto 10.
  destruct i; cbn; auto 10.
Qed.

Lemma run_effects_keeps_unsupported prev w :
  unsupported_idle w -> unsupported_idle (exec (run_effects prev (state w)) w).
Proof.
  destruct w as [[inp img msgs loading mounted sidebar tr lis sup] synth calls fs infl].
  unfold unsupported_idle. cbn. intros (-> & -> & -> & -> & -> & ->).
  unfold run_effects, exec, mirrorEffect, voiceStopEffect, launch, askGroq, bind. cbn.
  destruct (mirror_deps_changed prev _), (voiceStop_deps_changed prev _); cbn; auto 10.
  all: destruct (JS.truthy_string (JS.trim tr)); cbn; auto 10.
Qed.

(** X8.  In a browser without speech recognition the component never
    returns its markup, so whatever happens, nothing is ever typed,
    submitted or sent: the text field stays empty, the history stays empty
    and no request leaves. *)
Theorem unsupported_browser_never_submits synth events :
  let w := run (initial synth false) events in
  input (state w) = "" /\
  messages (state w) = [] /\
  fetches w = [].
Proof.
  assert (H : forall w, unsupported_idle w -> unsupported_idle (run w events)).
  { induction events as [|e events IH]; intros w Hw; [exact Hw|].
    change (unsupported_idle (run (step w e) events)). apply IH.
    rewrite step_one_pass.
    now apply run_effects_keeps_unsupported, handle_keeps_unsupported. }
  destruct (H (initial synth false)) as (_ & Hi & _ & Hm & Hf & _).
  { repeat split. }
  auto.
Qed.

(** ** Voice capture and the text field *)

(** X9.  Switching the microphone on discards what was typed: the
    recognition starts with an empty transcript, which the mirroring effect
    copies into the text field at once; nothing is submitted. *)
Theorem starting_capture_clears_input w :
  rendered (state w) = true ->
  isLoading (state w) = false ->
  listening (state w) = false ->
  let w' := step w ClickVoice in
  listening (state w') = true /\
  transcript (state w') = "" /\
  input (state w') = "" /\
  messages (state w') = messages (state w) /\
  fetches w' = fetches w.
Proof.
  intros Hr Hidle Hl w'. unfold w'. rewrite step_one_pass.
  destruct w as [[inp img msgs loading mounted sidebar tr lis sup] synth calls fs infl].
  cbn in Hr, Hidle, Hl. subst loading lis.
  unfold exec, handle, handleVoice, startListening, resetTranscript, bind.
  cbn. rewrite Hr. cbn.
  unfold run_effects, mirror_deps_changed, voiceStop_deps_changed, mirrorEffect,
    voiceStopEffect, launch, bind. cbn.
  rewrite Bool.orb_true_r. cbn. auto.
Qed.

(** X10.  While the microphone is on, every new transcript replaces the
    content of the text field, whatever was typed there, and nothing is
    submitted. *)
Theorem heard_transcript_is_mirrored w t :
  listening (state w) = true ->
  t <> transcript (state w) ->
  let w' := step w (Heard t) in
  transcript (state w') = t /\
  input (state w') = t /\
  messages (state w') = messages (state w) /\
  fetches w' = fetches w.
Proof.
  intros Hl Hnew w'. unfold w'. rewrite step_one_pass.
  destruct w as [[inp img msgs loading mounted sidebar tr lis sup] synth calls fs infl].
  cbn in Hl, Hnew. subst lis.
  assert (Hneq : (tr =? t)%string = false).
  { apply String.eqb_neq. congruence. }
  unfold exec, handle. cbn.
  unfold run_effects, mirror_deps_changed, voiceStop_deps_changed, mirrorEffect,
    voiceStopEffect, launch, bind. cbn.
  rewrite Hneq. cbn. auto.
Qed.

(** X11.  Once a capture has stopped, its transcript stays (only the next
    start resets it), and the effect of lines 114-118 runs again whenever
    [askGroq] changes.  So with a stopped capture whose transcript is not
    blank, an edit of the text field that leaves it non-blank is submitted
    at once, without Enter or the ask button. *)
Theorem edit_after_capture_is_submitted w v :
  rendered (state w) = true ->
  isLoading (state w) = false ->
  listening (state w) = false ->
  JS.trim (transcript (state w)) <> "" ->
  JS.trim v <> "" ->
  v <> input (state w) ->
  let w' := step w (Typed v) in
  messages (state w') = (messages (state w) ++ [user_message v])%list /\
  fetches w' = (fetches w ++ [{| form_messages := (messages (state w) ++ [user_message v])%list;
                                 form_image := uploadedImage (state w) |}])%list /\
  input (state w') = "" /\
  isLoading (state w') = true.
Proof.
  intros Hr Hidle Hl Ht Hv Hnew w'. unfold w'. rewrite step_one_pass.
  destruct w as [[inp img msgs loading mounted sidebar tr lis sup] synth calls fs infl].
  cbn in Hr, Hidle, Hl, Ht, Hnew. subst loading lis.
  assert (Hneq : (inp =? v)%string = false).
  { apply String.eqb_neq. congruence. }
  unfold rendered in Hr. cbn in Hr. apply Bool.andb_true_iff in Hr.
  destruct Hr as [-> ->].
  unfold exec, handle. cbn.
  unfold run_effects, mirror_deps_changed, voiceStop_deps_changed, askGroq_changed,
    mirrorEffect, voiceStopEffect, launch, askGroq, bind. cbn.
  rewrite String.eqb_refl, Hneq. cbn.
  rewrite (truthy_string_true _ Ht), (truthy_string_true _ Hv). cbn.
  destruct img; cbn; auto.
Qed.

(** ** One request per event *)

(** What a handler sends: nothing, or one request, after which the text
    field is empty and the recognition as it was. *)
Lemma handle_sends w e :
  let w1 := exec (handle e) w in
  fetches w1 = fetches w \/
  (exists request,
      fetches w1 = (fetches w ++ [request])%list /\
      input (state w1) = "" /\
      transcript (state w1) = transcript (state w) /\
      listening (state w1) = listening (state w)).
Proof.
  set (P := fun w1 : World =>
    fetches w1 = fetches w \/
    (exists request,
        fetches w1 = (fetches w ++ [request])%list /\
        input (state w1) = "" /\
        transcript (state w1) = transcript (state w) /\
        listening (state w1) = listening (state w))).
  change (P (exec (handle e) w)).
  assert (Hsame : forall w1, fetches w1 = fetches w -> P w1) by (intros; now left).
  assert (Hlaunch : forall r, P (snd (launch r (askGroq r) w))).
  { intros r.
    destruct (string_dec (JS.trim (input r)) "") as [Hb | Hnb];
      [apply Hsame; unfold launch; rewrite askGroq_rejected; auto|].
    destruct (isMounted r) eqn:Hm;
      [|apply Hsame; unfold launch; rewrite askGroq_rejected; auto].
    right. exists (turn_request r).
    destruct (askGroq_accepted r w Hnb Hm) as (Hreq & _ & Hf & Hi & _).
    destruct (askGroq_keeps_recognition r w) as (Ht & Hl & _).
    unfold launch.
    destruct (askGroq r w) as [[request|] w2]; cbn in *; [auto | discriminate Hreq]. }
  destruct e; unfold exec, handle.
  - now apply Hsame.
  - apply Hsame. destruct (_ && _); reflexivity.
  - destruct (_ && _); [|now apply Hsame]. unfold onKeyDown.
    destruct (_ && _); [apply Hlaunch | now apply Hsame].
  - destruct (_ && _); [apply Hlaunch | now apply Hsame].
  - apply Hsame. unfold handleVoice, stopListening, startListening, resetTranscript.
    destruct (_ && _); [|reflexivity]. destruct (listening (state w)); reflexivity.
  - apply Hsame. destruct (rendered (state w)); [|reflexivity].
    destruct files as [[|f fs]|]; reflexivity.
  - apply Hsame. destruct (rendered (state w)); reflexivity.
  - apply Hsame. destruct (listening (state w)); reflexivity.
  - now apply Hsame.
  - apply Hsame. unfold resume.
    destruct (nth_error (inflight w) i) as [r|]; [|reflexivity].
    match goal with
    | |- context [askGroq_settled r o ?w0] =>
        destruct (askGroq_settled_spec r o w0) as (_ & _ & _ & _ & Hf & _)
    end.
    exact Hf.
  - now apply Hsame.
Qed.

(** What one pass of the effects sends: nothing, or one request. *)
Lemma run_effects_sends prev w :
  let w2 := exec (run_effects prev (state w)) w in
  fetches w2 = fetches w \/ exists request, fetches w2 = (fetches w ++ [request])%list.
Proof.
  destruct w as [[inp img msgs loading mounted sidebar tr lis sup] synth calls fs infl].
  unfold run_effects, exec, mirrorEffect, voiceStopEffect, launch, askGroq, bind. cbn.
  destruct (mirror_deps_changed prev _), (voiceStop_deps_changed prev _), lis; cbn; auto.
  all: split_ifs; eauto.
Qed.

(** X12.  No event makes the page send more than one request: over the
    handler, the re-render and every effect it sets off, the list of
    requests sent stays as it is or grows by exactly one. *)
Theorem at_most_one_request_per_event w e :
  fetches (step w e) = fetches w \/
  exists request, fetches (step w e) = (fetches w ++ [request])%list.
Proof.
  rewrite step_one_pass.
  destruct (handle_sends w e) as [Hsame | (request & Hf & Hi & Ht & Hl)].
  - rewrite <- Hsame. apply run_effects_sends.
  - right. exists request.
    rewrite (run_effects_idle (state w) (exec (handle e) w)); auto.
Qed.

(** ** What a settled turn says and shows *)

(** X13.  On a mounted page with a speech synthesiser, a settled turn
    cancels whatever is being spoken and speaks one utterance: the content
    of the reply when the turn succeeded, and the fixed sentence "Sorry, I
    encountered an error" when it failed, never the text of the error. *)
Theorem settled_turn_speaks r o w queue :
  isMounted r = true ->
  speechSynthesis w = Some queue ->
  let w' := exec (askGroq_settled r o) w in
  speechSynthesis w' = Some [utterance_of (spoken_text o)] /\
  synthCalls w' = (synthCalls w ++ [Cancel; Speak (utterance_of (spoken_text o))])%list /\
  (turn_fails o -> spoken_text o = "Sorry, I encountered an error").
Proof.
  intros Hm Hs w'. unfold w'.
  destruct w as [st synth calls fs infl]. cbn in Hs. subst synth.
  unfold askGroq_settled, speak, spoken_text, turn_fails, exec, bind,
    speechSynthesis_in_window.
  rewrite Hm. destruct (response_content o) as [e|c]; cbn;
    rewrite <- app_assoc; cbn; repeat split.
  intros [e H]. discriminate H.
Qed.

(** X14.  A turn is shown as a success exactly when the response is [ok],
    its body reads as JSON and the [success] field of the body is truthy:
    a rejected [fetch], a response that is not [ok] (whatever its body
    says), a body that is not JSON or a falsy [success] all end in the
    flagged error message. *)
Theorem success_needs_ok_and_truthy_success o :
  (~ turn_fails o <-> reports_success o) /\
  (turn_fails o <-> error (reply_message o) = Some true).
Proof.
  split; [|symmetry; apply reply_flag].
  unfold turn_fails, reports_success, response_content. split.
  - intros Hok.
    destruct o as [e | [e|t] | [e|data]]; try (exfalso; apply Hok; eauto; fail).
    destruct (JS.get data "success") as [e|success] eqn:Hs;
      [exfalso; apply Hok; eauto|].
    destruct (JS.truthy success) eqn:Ht; [eauto|].
    exfalso. apply Hok. cbn. destruct (JS.get data "error"); eauto.
  - intros (data & success & -> & Hs & Ht) [e He].
    rewrite Hs, Ht in He. cbn in He.
    destruct data; cbn in Hs, He; discriminate.
Qed.

(** ** The attached image *)

Lemma askGroq_keeps_isMounted r w :
  isMounted (state (snd (askGroq r w))) = isMounted (state w).
Proof.
  unfold askGroq. destruct (negb _ || negb _); [reflexivity|].
  destruct (uploadedImage r); reflexivity.
Qed.

(** X15.  An attached image goes out with the next submitted turn and with
    that turn only: the request of the turn carries the first file chosen,
    the attachment is dropped as the request leaves, and the next turn's
    request carries no image. *)
Theorem attached_image_is_sent_once w f rest v :
  JS.trim (input (state w)) <> "" ->
  isMounted (state w) = true ->
  JS.trim v <> "" ->
  let w1 := exec (handleImageUpload (Some (f :: rest))) w in
  let first := askGroq (state w1) w1 in
  let w2 := exec (setInput v) (snd first) in
  let second := askGroq (state w2) w2 in
  (exists request, fst first = Some request /\ form_image request = Some f) /\
  uploadedImage (state (snd first)) = None /\
  (exists request, fst second = Some request /\ form_image request = None).
Proof.
  intros Hin Hm Hv w1 first w2 second.
  destruct (askGroq_accepted (state w1) w1 Hin Hm) as (Hreq & _ & _ & _ & _ & Himg).
  fold first in Hreq, Himg.
  assert (Himg' : uploadedImage (state (snd first)) = None) by exact Himg.
  assert (Hm2 : isMounted (state w2) = true).
  { unfold w2, first. cbn. rewrite askGroq_keeps_isMounted. exact Hm. }
  destruct (askGroq_accepted (state w2) w2 Hv Hm2) as (Hreq2 & _).
  fold second in Hreq2.
  split; [exists (turn_request (state w1)); split; [exact Hreq | reflexivity]|].
  split; [exact Himg'|].
  exists (turn_request (state w2)). split; [exact Hreq2|].
  unfold turn_request. cbn. exact Himg'.
Qed.

(** ** The theorems at concrete inputs *)

Ltac by_evaluation H := vm_compute in H; vm_compute; exact H.
Ltac evaluates := vm_compute; reflexivity.
Ltac not_blank := let H := fresh in intro H; vm_compute in H; discriminate H.

Lemma blank_input_is_ignored_example :
  JS.trim (input (state typed_blanks)) = "" /\
  input (state typed_blanks) = "   " /\
  step typed_blanks ClickAsk = typed_blanks /\
  step typed_blanks (KeyDown "Enter") = typed_blanks.
Proof.
  assert (Hb : JS.trim (input (state typed_blanks)) = "") by evaluates.
  split; [exact Hb|]. split; [evaluates|].
  exact (proj2 (blank_input_is_ignored typed_blanks "Enter" Hb)).
Defined.

Lemma starting_capture_clears_input_example :
  rendered (state typed_hi) = true /\
  isLoading (state typed_hi) = false /\
  listening (state typed_hi) = false /\
  input (state typed_hi) = "hi" /\
  input (state (step typed_hi ClickVoice)) = "".
Proof.
  assert (Hr : rendered (state typed_hi) = true) by evaluates.
  assert (Hi : isLoading (state typed_hi) = false) by evaluates.
  assert (Hl : listening (state typed_hi) = false) by evaluates.
  repeat (split; [assumption || evaluates|]).
  pose proof (starting_capture_clears_input typed_hi Hr Hi Hl) as H.
  cbv zeta in H. destruct H as (_ & _ & H & _). exact H.
Defined.

Lemma edited_transcript_differs :
  "hello world" <> transcript (state edited_while_listening).
Proof. not_blank. Defined.

Lemma heard_transcript_is_mirrored_example :
  listening (state edited_while_listening) = true /\
  "hello world" <> transcript (state edited_while_listening) /\
  input (state edited_while_listening) = "hellox" /\
  input (state (step edited_while_listening (Heard "hello world"))) = "hello world".
Proof.
  assert (Hl : listening (state edited_while_listening) = true) by evaluates.
  split; [exact Hl|]. split; [exact edited_transcript_differs|]. split; [evaluates|].
  pose proof (heard_transcript_is_mirrored edited_while_listening "hello world"
                Hl edited_transcript_differs) as H.
  cbv zeta in H. destruct H as (_ & H & _). exact H.
Defined.

Lemma after_voice_turn_transcript :
  JS.trim (transcript (state after_voice_turn)) <> "".
Proof. not_blank. Defined.

Lemma letter_not_blank : JS.trim "a" <> "".
Proof. not_blank. Defined.

Lemma letter_is_new : "a" <> input (state after_voice_turn).
Proof. not_blank. Defined.

Lemma edit_after_capture_is_submitted_example :
  (rendered (state after_voice_turn) = true /\
   isLoading (state after_voice_turn) = false /\
   listening (state after_voice_turn) = false) /\
  (JS.trim (transcript (state after_voice_turn)) <> "" /\
   JS.trim "a" <> "" /\
   "a" <> input (state after_voice_turn)) /\
  messages (state (step after_voice_turn (Typed "a")))
  = [user_message "hello";
     {| role := assistant; content := "Hi"; error := None |};
     user_message "a"].
Proof.
  assert (Hr : rendered (state after_voice_turn) = true) by evaluates.
  assert (Hi : isLoading (state after_voice_turn) = false) by evaluates.
  assert (Hl : listening (state after_voice_turn) = false) by evaluates.
  split; [auto|].
  split; [auto using after_voice_turn_transcript, letter_not_blank, letter_is_new|].
  pose proof (edit_after_capture_is_submitted after_voice_turn "a" Hr Hi Hl
                after_voice_turn_transcript letter_not_blank letter_is_new) as H.
  cbv zeta in H. destruct H as (H & _). by_evaluation H.
Defined.

Lemma settled_turn_speaks_example :
  isMounted (state typed_hi) = true /\
  speechSynthesis typed_hi = Some [] /\
  speechSynthesis
    (exec (askGroq_settled (state typed_hi) (Rejected "Failed to fetch")) typed_hi)
  = Some [utterance_of "Sorry, I encountered an error"].
Proof.
  assert (Hm : isMounted (state typed_hi) = true) by evaluates.
  assert (Hs : speechSynthesis typed_hi = Some []) by evaluates.
  split; [exact Hm|]. split; [exact Hs|].
  exact (proj1 (settled_turn_speaks (state typed_hi) (Rejected "Failed to fetch")
                  typed_hi [] Hm Hs)).
Defined.

Lemma attached_image_is_sent_once_example :
  JS.trim (input (state typed_hi)) <> "" /\
  isMounted (state typed_hi) = true /\
  JS.trim "again" <> "" /\
  uploadedImage
    (state (snd (askGroq
                   (state (exec (handleImageUpload (Some [RelayMore.snapshot])) typed_hi))
                   (exec (handleImageUpload (Some [RelayMore.snapshot])) typed_hi))))
  = None.
Proof.
  assert (Hin : JS.trim (input (state typed_hi)) <> "") by not_blank.
  assert (Hm : isMounted (state typed_hi) = true) by evaluates.
  assert (Hv : JS.trim "again" <> "") by not_blank.
  split; [exact Hin|]. split; [exact Hm|]. split; [exact Hv|].
  exact (proj1 (proj2 (attached_image_is_sent_once typed_hi RelayMore.snapshot []
                         "again" Hin Hm Hv))).
Defined.

End ControllerExtras.


(** * From the relay's response to the message on the page *)

Module EndToEnd.

Import RelaySpec RelayMore RelayProperties RelayExtras.
Import Controller ControllerSpec ControllerMore.

Section Facts.

Variable JSON_parse : string -> Except JS.value.
Variable arrayBuffer : File -> Except (list Byte.byte).
Variable create : Relay.ProviderCall -> Except Relay.Completion.
Variable stringify : JS.value -> string.

Local Abbreviation POST := (Relay.POST JSON_parse arrayBuffer create).
Local Abbreviation parses := (parses JSON_parse arrayBuffer).

(** X16.  When the relay received a completion, the page shows the relay's
    content (the first choice's text, or "No response") as an ordinary
    assistant message without the error flag, and speaks that content. *)
Theorem relay_success_is_shown env apiKey req messages completion :
  configured env apiKey ->
  parses req messages ->
  create (the_call apiKey messages) = inr completion ->
  let o := deliver stringify (fst (POST env req)) in
  reply_message o
  = {| role := assistant;
       content := text_or_placeholder completion;
       error := None |} /\
  spoken_text o = text_or_placeholder completion.
Proof.
  intros Hc Hp Hcreate o.
  assert (Ho : response_content o = inr (text_or_placeholder completion)).
  { unfold o.
    rewrite (POST_configured JSON_parse arrayBuffer create env apiKey req Hc).
    rewrite (try_block_parses JSON_parse arrayBuffer create apiKey req messages Hp).
    rewrite Hcreate, completion_content_spec. cbn.
    pose proof (completion_content_not_empty completion) as Hne.
    rewrite completion_content_spec in Hne.
    unfold JS.or_else. cbn.
    destruct (text_or_placeholder completion); [now elim Hne | reflexivity]. }
  unfold reply_message, spoken_text. rewrite Ho. split; reflexivity.
Qed.

(** X17.  Every other response of the relay, the configuration error (500)
    and the processing failure (502), is not [ok]: the page never reads its
    [error] field but shows, flagged as an error, the raw text of the body
    after "Error: " (or "Server error" if that text contains "<!DOCTYPE"),
    and speaks the fixed apology. *)
Theorem relay_failure_is_shown_raw env req :
  Relay.status (fst (POST env req)) <> 200%Z ->
  let response := fst (POST env req) in
  let o := deliver stringify response in
  let raw := stringify (Relay.body response) in
  reply_message o
  = {| role := assistant;
       content := "Error: " ++ (if JS.includes raw "<!DOCTYPE"
                                then "Server error" else raw);
       error := Some true |} /\
  spoken_text o = "Sorry, I encountered an error".
Proof.
  intros Hstatus response o raw.
  assert (Ho : o = NotOk (inr raw)).
  { unfold o, raw, response, deliver.
    destruct (POST_cases JSON_parse arrayBuffer create env req)
      as [[H _] | [(apiKey & m & _ & _ & H) | (apiKey & messages & _ & _ & H)]];
      rewrite H in Hstatus |- *; cbn in Hstatus |- *; try reflexivity.
    destruct (create _); cbn in Hstatus |- *; [reflexivity | now elim Hstatus]. }
  unfold reply_message, spoken_text. rewrite Ho. cbn. split; reflexivity.
Qed.

End Facts.

(** ** Concrete responses *)

Lemma relay_success_is_shown_example :
  reply_message
    (deliver (fun _ => "")
       (fst (Relay.POST parse_any read_any (fun _ => inr paris)
               env_with_key plain_request)))
  = {| role := assistant; content := "Paris"; error := None |}.
Proof.
  exact (proj1 (relay_success_is_shown parse_any read_any (fun _ => inr paris)
                  (fun _ => "") env_with_key "gsk_test" plain_request
                  (JS.Arr []) paris env_with_key_configured plain_request_parses
                  eq_refl)).
Defined.

Lemma relay_failure_is_shown_raw_example :
  Relay.status (fst (Relay.POST parse_any read_any (fun _ => inr paris)
                       env_without_key plain_request)) = 500%Z /\
  reply_message
    (deliver (fun _ => "{error:Server configuration error}")
       (fst (Relay.POST parse_any read_any (fun _ => inr paris)
               env_without_key plain_request)))
  = {| role := assistant;
       content := "Error: {error:Server configuration error}";
       error := Some true |}.
Proof.
  split; [reflexivity|].
  assert (Hs : Relay.status (fst (Relay.POST parse_any read_any (fun _ => inr paris)
                                    env_without_key plain_request)) <> 200%Z)
    by discriminate.
  exact (proj1 (relay_failure_is_shown_raw parse_any read_any (fun _ => inr paris)
                  (fun _ => "{error:Server configuration error}")
                  env_without_key plain_request Hs)).
Defined.

End EndToEnd.
